(** * next-tut: server actions, credential check and route matcher

    A shallow embedding of the server-side logic of the invoice dashboard:

    - [app/lib/actions.ts] (latest revision): [createInvoice],
      [updateInvoice], [deleteInvoice] and the [FormSchema] they validate with;
    - [auth.ts]: [getUser] and the [authorize] callback of the credentials
      provider;
    - [middleware.ts]: the [matcher] regular expression of [config].

    JavaScript numbers are IEEE-754 binary64 values ([spec_float] with
    precision 53), strings are sequences of code units below 256, and the
    effects of a server action (the SQL statement, [revalidatePath],
    [redirect], [console.log]) are recorded in an explicit world. *)

From Stdlib Require Import ZArith List String Ascii Bool Lia DecimalString.
From Stdlib Require Import Floats.SpecFloat.
Import ListNotations.

Local Open Scope string_scope.

(** ** Strings *)

Module Str.

(** [s.startsWith(p)], returning what follows the prefix. *)
Fixpoint strip_prefix (p s : string) : option string :=
  match p with
  | EmptyString => Some s
  | String a p' =>
      match s with
      | EmptyString => None
      | String b s' => if Ascii.eqb a b then strip_prefix p' s' else None
      end
  end.

Definition starts_with (p s : string) : bool :=
  match strip_prefix p s with Some _ => true | None => false end.

Fixpoint drop_while (f : ascii -> bool) (s : string) : string :=
  match s with
  | EmptyString => EmptyString
  | String c s' => if f c then drop_while f s' else s
  end.

Fixpoint rev_onto (s acc : string) : string :=
  match s with
  | EmptyString => acc
  | String c s' => rev_onto s' (String c acc)
  end.

Definition rev (s : string) : string := rev_onto s EmptyString.

Definition is_empty (s : string) : bool :=
  match s with EmptyString => true | _ => false end.

(** [s.split(sep)[0]] for a one-character separator: the part of [s] before
    the first occurrence of [sep], the whole of [s] when there is none. *)
Fixpoint before (sep : ascii) (s : string) : string :=
  match s with
  | EmptyString => EmptyString
  | String c s' => if Ascii.eqb c sep then EmptyString else String c (before sep s')
  end.

End Str.

(** ** JavaScript numbers *)

Module JsNumber.

Definition prec : Z := 53.
Definition emax : Z := 1024.

(** A Number value: NaN, a signed zero, a signed infinity or a finite
    binary64 value. *)
Definition number : Type := spec_float.

Definition NaN : number := S754_nan.
Definition pos_zero : number := S754_zero false.

(** The Number nearest to an integer (ties to even). *)
Definition of_Z (z : Z) : number := binary_normalize prec emax z 0 false.

(** The Number nearest to [m * 10^e], for [0 <= m]: the rounding the
    language prescribes for the mathematical value of a decimal literal. *)
Definition of_decimal (neg : bool) (m e : Z) : number :=
  match m with
  | Z0 => S754_zero neg
  | Zneg _ => S754_nan
  | Zpos _ =>
      match e with
      | Zneg k =>
          let '(q, e', l) := SFdiv_core_binary prec emax m 0 (Z.pow_pos 10 k) 0 in
          binary_round_aux prec emax neg q e' l
      | _ => binary_normalize prec emax ((if neg then Z.opp m else m) * 10 ^ e) 0 neg
      end
  end.

Definition mul : number -> number -> number := SFmul prec emax.

(** [x <= y], false when an operand is NaN. *)
Definition leb : number -> number -> bool := SFleb.

Definition isNaN (x : number) : bool :=
  match x with S754_nan => true | _ => false end.

(** The integer a Number denotes, when it denotes one. *)
Definition to_Z (x : number) : option Z :=
  match x with
  | S754_zero _ => Some 0%Z
  | S754_finite s m (Zneg k) =>
      let d := Z.pow_pos 2 k in
      if Z.eqb (Z.modulo (Zpos m) d) 0
      then Some ((if s then Z.opp else fun z => z) (Z.div (Zpos m) d))
      else None
  | S754_finite s m e =>
      Some ((if s then Z.opp else fun z => z) (Zpos m * 2 ^ e)%Z)
  | _ => None
  end.

(** *** [Number(string)]: the StringNumericLiteral grammar *)

Definition code (c : ascii) : N := N_of_ascii c.

(** StrWhiteSpaceChar, among the code units below 256: TAB, LF, VT, FF, CR,
    SP and NBSP. *)
Definition is_white_space (c : ascii) : bool :=
  let n := code c in
  ((9 <=? n) && (n <=? 13) || (n =? 32) || (n =? 160))%N.

Definition trim (s : string) : string :=
  Str.rev (Str.drop_while is_white_space
             (Str.rev (Str.drop_while is_white_space s))).

(** The value of a digit in a radix up to 16, if [c] is such a digit. *)
Definition digit_of (radix : Z) (c : ascii) : option Z :=
  let n := Z.of_N (code c) in
  let v :=
    if ((48 <=? n) && (n <=? 57))%Z then Some (n - 48)%Z
    else if ((97 <=? n) && (n <=? 102))%Z then Some (n - 87)%Z
    else if ((65 <=? n) && (n <=? 70))%Z then Some (n - 55)%Z
    else None in
  match v with
  | Some d => if (d <? radix)%Z then Some d else None
  | None => None
  end.

(** Reads the longest run of digits at the head of [s]: its value on top of
    [acc], the number of digits read, and what follows. *)
Fixpoint digits (radix : Z) (s : string) (acc : Z) (n : Z) : Z * Z * string :=
  match s with
  | EmptyString => (acc, n, s)
  | String c s' =>
      match digit_of radix c with
      | Some d => digits radix s' (acc * radix + d)%Z (n + 1)%Z
      | None => (acc, n, s)
      end
  end.

(** ExponentPart, optional: the exponent, or [None] when what is left of the
    literal is not a well-formed exponent part. *)
Definition exponent_part (s : string) : option Z :=
  match s with
  | EmptyString => Some 0%Z
  | String c s' =>
      if (Ascii.eqb c "e" || Ascii.eqb c "E")%char then
        let '(neg, s'') :=
          match s' with
          | String "+"%char r => (false, r)
          | String "-"%char r => (true, r)
          | _ => (false, s')
          end in
        let '(x, nx, rest) := digits 10 s'' 0 0 in
        match rest with
        | EmptyString =>
            if (0 <? nx)%Z then Some (if neg then Z.opp x else x) else None
        | _ => None
        end
      else None
  end.

(** StrUnsignedDecimalLiteral. *)
Definition unsigned_decimal (neg : bool) (s : string) : option number :=
  if String.eqb s "Infinity" then Some (S754_infinity neg)
  else
    let '(i, ni, r1) := digits 10 s 0 0 in
    let '(m, nd, nf, r2) :=
      match r1 with
      | String "."%char r =>
          let '(m, nd, r2) := digits 10 r i ni in (m, nd, (nd - ni)%Z, r2)
      | _ => (i, ni, 0%Z, r1)
      end in
    if (nd =? 0)%Z then None
    else
      match exponent_part r2 with
      | Some x => Some (of_decimal neg m (x - nf))
      | None => None
      end.

(** NonDecimalIntegerLiteral: [0x], [0o] and [0b] literals, unsigned. *)
Definition non_decimal (s : string) : option number :=
  match s with
  | String "0"%char (String p r) =>
      let radix :=
        if (Ascii.eqb p "x" || Ascii.eqb p "X")%char then Some 16%Z
        else if (Ascii.eqb p "o" || Ascii.eqb p "O")%char then Some 8%Z
        else if (Ascii.eqb p "b" || Ascii.eqb p "B")%char then Some 2%Z
        else None in
      match radix with
      | Some b =>
          let '(v, n, rest) := digits b r 0 0 in
          match rest with
          | EmptyString => if (0 <? n)%Z then Some (of_Z v) else None
          | _ => None
          end
      | None => None
      end
  | _ => None
  end.

(** StrNumericLiteral. *)
Definition numeric_literal (s : string) : option number :=
  match non_decimal s with
  | Some v => Some v
  | None =>
      match s with
      | String "+"%char r => unsigned_decimal false r
      | String "-"%char r => unsigned_decimal true r
      | _ => unsigned_decimal false s
      end
  end.

(** StringToNumber: white space is trimmed, the empty string is +0, a
    numeric literal is its value and anything else is NaN. *)
Definition StringToNumber (s : string) : number :=
  match trim s with
  | EmptyString => pos_zero
  | t => match numeric_literal t with Some v => v | None => NaN end
  end.

(** Whether [s], white space trimmed, is a StrNumericLiteral. *)
Definition is_numeric (s : string) : bool :=
  match numeric_literal (trim s) with Some _ => true | None => false end.

End JsNumber.

(** ** The world of a request and the monad of server code *)

(** [InvoiceStatus] is the enum [z.enum(['pending', 'paid'])]. *)
Inductive InvoiceStatus := pending | paid.

Record InvoiceRow := {
  row_id : string;
  row_customer_id : string;
  row_amount : JsNumber.number;
  row_status : InvoiceStatus;
  row_date : string
}.

(** Modelled from the spec: the [User] type of [app/lib/definitions.ts], which
    the spec calls Identity: an id, an email and a password hash. *)
Record User := {
  user_id : string;
  user_email : string;
  user_password : string
}.

(** The SQL statements the code issues, with their interpolated parameters. *)
Inductive Statement :=
| INSERT_invoices (customer_id : string) (amount : JsNumber.number)
                (status : InvoiceStatus) (date : string)
| UPDATE_invoices (customer_id : string) (amount : JsNumber.number)
                (status : InvoiceStatus) (id : string)
| DELETE_invoices (id : string)
| SELECT_users (email : string).

Inductive Event :=
| ESql (s : Statement)
| ERevalidatePath (path : string)
| ERedirect (path : string)
| EConsoleLog (text : string)
| EConsoleError (text : string).

(** What a [throw] carries: an [Error] with its message, the error of a
    rejected SQL statement, or the signal [redirect] throws. *)
Inductive Exn :=
| JsError (message : string)
| SqlError
| NextRedirect (path : string).

Record Db := {
  invoices : list InvoiceRow;
  users : list User;
  next_id : N
}.

(** The world: the store, the set of statements the store rejects (it is
    unreachable, or a constraint is violated), the ISO-8601 reading of the
    clock, and the effects performed so far, oldest first. *)
Record World := {
  db : Db;
  rejects : Statement -> bool;
  now : string;
  events : list Event
}.

Definition emit (e : Event) (w : World) : World :=
  {| db := db w; rejects := rejects w; now := now w; events := events w ++ [e] |}.

Definition with_db (d : Db) (w : World) : World :=
  {| db := d; rejects := rejects w; now := now w; events := events w |}.

Inductive Outcome (A : Type) :=
| Normal (a : A)
| Thrown (e : Exn).
Arguments Normal {A} a.
Arguments Thrown {A} e.

Definition M (A : Type) : Type := World -> Outcome A * World.

Definition ret {A} (a : A) : M A := fun w => (Normal a, w).

Definition throw {A} (e : Exn) : M A := fun w => (Thrown e, w).

Definition bind {A B} (m : M A) (k : A -> M B) : M B :=
  fun w =>
    match m w with
    | (Normal a, w') => k a w'
    | (Thrown e, w') => (Thrown e, w')
    end.

(** [try { body } catch (error) { handler }]: whatever [body] throws is
    caught; the effects it performed before throwing stay. *)
Definition try_catch {A} (body : M A) (handler : Exn -> M A) : M A :=
  fun w =>
    match body w with
    | (Normal a, w') => (Normal a, w')
    | (Thrown e, w') => handler e w'
    end.

Declare Scope js_scope.
Delimit Scope js_scope with js.
Notation "x <- m ;; k" := (bind m (fun x => k))
  (at level 61, m at next level, right associativity) : js_scope.
Notation "m ;; k" := (bind m (fun _ => k))
  (at level 61, right associativity) : js_scope.
Local Open Scope js_scope.

Definition tell (e : Event) : M unit := fun w => (Normal tt, emit e w).

Definition console_log (text : string) : M unit := tell (EConsoleLog text).
Definition console_error (text : string) : M unit := tell (EConsoleError text).

(** [revalidatePath(path)] marks the cached view of [path] stale. *)
Definition revalidatePath (path : string) : M unit := tell (ERevalidatePath path).

(** [redirect(path)] never returns: it throws the navigation signal. *)
Definition redirect {A} (path : string) : M A :=
  tell (ERedirect path) ;; throw (NextRedirect path).

(** [new Date().toISOString()]. *)
Definition toISOString_now : M string := fun w => (Normal (now w), w).

(** *** The store *)

Definition fresh_id (d : Db) : string :=
  NilEmpty.string_of_uint (N.to_uint (next_id d)).

Definition update_row (customer_id : string) (amount : JsNumber.number)
    (status : InvoiceStatus) (id : string) (r : InvoiceRow) : InvoiceRow :=
  if String.eqb (row_id r) id
  then {| row_id := row_id r; row_customer_id := customer_id;
          row_amount := amount; row_status := status; row_date := row_date r |}
  else r.

(** What an accepted statement does to the tables. *)
Definition apply_statement (s : Statement) (d : Db) : Db :=
  match s with
  | INSERT_invoices customer_id amount status date =>
      {| invoices := invoices d ++
           [{| row_id := fresh_id d; row_customer_id := customer_id;
               row_amount := amount; row_status := status; row_date := date |}];
         users := users d;
         next_id := N.succ (next_id d) |}
  | UPDATE_invoices customer_id amount status id =>
      {| invoices := map (update_row customer_id amount status id) (invoices d);
         users := users d;
         next_id := next_id d |}
  | DELETE_invoices id =>
      {| invoices := filter (fun r => negb (String.eqb (row_id r) id)) (invoices d);
         users := users d;
         next_id := next_id d |}
  | SELECT_users _ => d
  end.

(** The rows a [SELECT * FROM users WHERE email = ...] returns. *)
Definition select_users (email : string) (d : Db) : list User :=
  filter (fun u => String.eqb (user_email u) email) (users d).

(** [await sql`...`] for a statement that returns no rows: the statement is
    sent; a rejected one throws and leaves the tables as they were. *)
Definition sql (s : Statement) : M unit :=
  fun w =>
    let w' := emit (ESql s) w in
    if rejects w s then (Thrown SqlError, w')
    else (Normal tt, with_db (apply_statement s (db w)) w').

(** [await sql<User>`SELECT * FROM users WHERE email=${email}`], giving the
    [rows] of the result. *)
Definition sql_users (email : string) : M (list User) :=
  fun w =>
    let w' := emit (ESql (SELECT_users email)) w in
    if rejects w (SELECT_users email) then (Thrown SqlError, w')
    else (Normal (select_users email (db w)), w').

(** ** Form data *)

Module FormData.

(** [FormDataEntryValue]: a string or a [File]. *)
Inductive EntryValue :=
| Text (s : string)
| File (name : string).

Definition t : Type := list (string * EntryValue).

(** [formData.get(name)]: the first value under [name], [None] for [null]. *)
Fixpoint get (formData : t) (name : string) : option EntryValue :=
  match formData with
  | [] => None
  | (k, v) :: rest => if String.eqb k name then Some v else get rest name
  end.

End FormData.

(** ** The zod schemas *)

Module Zod.

Import FormData.

Record Issue := { path : string; message : string }.

Inductive Parsed (A : Type) :=
| Valid (a : A)
| Invalid (messages : list string).
Arguments Valid {A} a.
Arguments Invalid {A} messages.

Inductive SafeParseReturn (A : Type) :=
| Success (data : A)
| Failure (error : list Issue).
Arguments Success {A} data.
Arguments Failure {A} error.

Definition safeParse {I A} (schema : I -> SafeParseReturn A) (input : I) :
  SafeParseReturn A := schema input.

(** The type name zod reports for an input. *)
Definition received (v : option EntryValue) : string :=
  match v with
  | None => "null"
  | Some (Text _) => "string"
  | Some (File _) => "object"
  end.

(** [z.string({ invalid_type_error })]. *)
Definition string_ (invalid_type_error : option string)
    (v : option EntryValue) : Parsed string :=
  match v with
  | Some (Text s) => Valid s
  | _ =>
      Invalid [match invalid_type_error with
               | Some m => m
               | None => "Expected string, received " ++ received v
               end]
  end.

(** [Number(v)], the coercion of [z.coerce]. *)
Definition coerce (v : option EntryValue) : JsNumber.number :=
  match v with
  | None => JsNumber.pos_zero
  | Some (Text s) => JsNumber.StringToNumber s
  | Some (File _) => JsNumber.NaN
  end.

(** [z.coerce.number().gt(bound, { message })]: the input is coerced; NaN is
    not a number for zod; a number at most [bound] is too small. *)
Definition coerce_number_gt (bound : JsNumber.number) (message : string)
    (v : option EntryValue) : Parsed JsNumber.number :=
  let data := coerce v in
  if JsNumber.isNaN data then Invalid ["Expected number, received nan"]
  else if JsNumber.leb data bound then Invalid [message]
  else Valid data.

(** [z.enum(['pending', 'paid'], { invalid_type_error })]. *)
Definition enum_status (invalid_type_error : string)
    (v : option EntryValue) : Parsed InvoiceStatus :=
  match v with
  | Some (Text s) =>
      if String.eqb s "pending" then Valid pending
      else if String.eqb s "paid" then Valid paid
      else Invalid ["Invalid enum value. Expected 'pending' | 'paid', received '"
                      ++ s ++ "'"]
  | _ => Invalid [invalid_type_error]
  end.

Definition issues_at {A} (field : string) (p : Parsed A) : list Issue :=
  match p with
  | Valid _ => []
  | Invalid messages => map (fun m => {| path := field; message := m |}) messages
  end.

(** [error.flatten().fieldErrors[field]]: the messages of the issues at
    [field], absent when there is none. *)
Definition fieldErrors (error : list Issue) (field : string) :
  option (list string) :=
  match map message (filter (fun i => String.eqb (path i) field) error) with
  | [] => None
  | messages => Some messages
  end.

End Zod.

(** ** [app/lib/actions.ts] *)

Module Actions.

Import FormData Zod.

Record FieldErrors := {
  errors_customerId : option (list string);
  errors_amount : option (list string);
  errors_status : option (list string)
}.

Record State := {
  errors : option FieldErrors;
  message : option string
}.

(** The object handed to [safeParse]. *)
Record RawFields := {
  raw_customerId : option EntryValue;
  raw_amount : option EntryValue;
  raw_status : option EntryValue
}.

(** [validatedFields.data]. *)
Record Fields := {
  customerId : string;
  amount : JsNumber.number;
  status : InvoiceStatus
}.

(** The fields of [FormSchema] that [omit] keeps. *)
Definition FormSchema_customerId : option EntryValue -> Parsed string :=
  string_ (Some "Please select a customer.").

Definition FormSchema_amount : option EntryValue -> Parsed JsNumber.number :=
  coerce_number_gt (JsNumber.of_Z 0) "Please enter an amount greater than $0.".

Definition FormSchema_status : option EntryValue -> Parsed InvoiceStatus :=
  enum_status "Please select an invoice status".

(** [FormSchema.omit({ id: true, date: true })]: every field is checked and
    the issues of all of them are collected, in the order of the keys. *)
Definition FormSchema_omit_id_date (raw : RawFields) : SafeParseReturn Fields :=
  match FormSchema_customerId (raw_customerId raw),
        FormSchema_amount (raw_amount raw),
        FormSchema_status (raw_status raw) with
  | Valid c, Valid a, Valid s =>
      Success {| customerId := c; amount := a; status := s |}
  | pc, pa, ps =>
      Failure (issues_at "customerId" pc ++ issues_at "amount" pa
                 ++ issues_at "status" ps)
  end.

Definition CreateInvoice := FormSchema_omit_id_date.
Definition UpdateInvoice := FormSchema_omit_id_date.

Definition flatten_fieldErrors (error : list Issue) : FieldErrors :=
  {| errors_customerId := fieldErrors error "customerId";
     errors_amount := fieldErrors error "amount";
     errors_status := fieldErrors error "status" |}.

Definition raw_of (formData : FormData.t) : RawFields :=
  {| raw_customerId := get formData "customerId";
     raw_amount := get formData "amount";
     raw_status := get formData "status" |}.

Definition createInvoice (prevState : State) (formData : FormData.t) : M State :=
  let validatedFields := safeParse CreateInvoice (raw_of formData) in
  match validatedFields with
  | Failure error =>
      ret {| errors := Some (flatten_fieldErrors error);
             message := Some "Missing Fields. Failed to Create Invoice." |}
  | Success data =>
      let amountInCents := JsNumber.mul (amount data) (JsNumber.of_Z 100) in
      iso <- toISOString_now ;;
      let date := Str.before "T" iso in
      returned <-
        try_catch
          (sql (INSERT_invoices (customerId data) amountInCents (status data) date) ;;
           ret None)
          (fun error =>
             ret (Some {| errors := None;
                          message := Some "Database Error: Failed to create invoice." |})) ;;
      match returned with
      | Some result => ret result
      | None =>
          revalidatePath "/dashboard/invoices" ;;
          redirect "/dashboard/invoices"
      end
  end.

Definition updateInvoice (id : string) (prevState : State)
    (formData : FormData.t) : M State :=
  let validatedFields := safeParse UpdateInvoice (raw_of formData) in
  match validatedFields with
  | Failure error =>
      ret {| errors := Some (flatten_fieldErrors error);
             message := Some "Missing Fields. Failed to Update Invoice." |}
  | Success data =>
      let amountInCents := JsNumber.mul (amount data) (JsNumber.of_Z 100) in
      returned <-
        try_catch
          (sql (UPDATE_invoices (customerId data) amountInCents (status data) id) ;;
           ret None)
          (fun error =>
             ret (Some {| errors := None;
                          message := Some "Database Error: Failed to Update Invoice." |})) ;;
      match returned with
      | Some result => ret result
      | None =>
          revalidatePath "/dashboard/invoices" ;;
          redirect "/dashboard/invoices"
      end
  end.

(** The [throw] comes first; the [try] block after it is dead code. The
    earlier revision of the file has the same body. *)
Definition deleteInvoice (id : string) : M State :=
  throw (A := unit) (JsError "failed to delete invoice") ;;
  try_catch
    (sql (DELETE_invoices id) ;;
     revalidatePath "/dashboard/invoices" ;;
     ret {| errors := None; message := Some "Deleted Invoice." |})
    (fun error =>
       ret {| errors := None;
              message := Some "Database Error: Failed to Delete Invoice." |}).

Definition invoices_path : string := "/dashboard/invoices".

(** The statement [createInvoice] sends for validated fields [data]. *)
Definition insert_of (data : Fields) (w : World) : Statement :=
  INSERT_invoices (customerId data)
    (JsNumber.mul (amount data) (JsNumber.of_Z 100))
    (status data) (Str.before "T" (now w)).

(** The statement [updateInvoice] sends for validated fields [data]. *)
Definition update_of (id : string) (data : Fields) : Statement :=
  UPDATE_invoices (customerId data)
    (JsNumber.mul (amount data) (JsNumber.of_Z 100))
    (status data) id.

Definition database_error (text : string) : State :=
  {| errors := None; message := Some text |}.

(** A result whose message presents the failure as a database error. *)
Definition is_database_error (result : State) : bool :=
  match message result with
  | Some text => Str.starts_with "Database Error" text
  | None => false
  end.

(** The two messages a rejected amount can carry. *)
Definition amount_too_small : string := "Please enter an amount greater than $0.".
Definition amount_not_a_number : string := "Expected number, received nan".

(** The reading of the coercion rule under which an amount that is not a
    numeric literal becomes 0 and is turned down by the [gt(0)] check. *)
Definition non_numeric_amount_becomes_zero (s : string) : Prop :=
  JsNumber.is_numeric s = false ->
  JsNumber.to_Z (coerce (Some (Text s))) = Some 0%Z /\
  FormSchema_amount (Some (Text s)) = Invalid [amount_too_small].

End Actions.

(** ** [auth.ts] *)

Module Auth.

Import Zod.

(** The [credentials] object handed to [authorize]; a field that is missing
    or is not a string is [None]. *)
Record Credentials := {
  email : option string;
  password : option string
}.

Section Authorize.

(** The test behind [z.string().email()], a regular expression of the zod
    release in use, and [bcrypt.compare(plain, hash)]. *)
Variable is_email : string -> bool.
Variable bcrypt_compare : string -> string -> bool.

Definition getUser (email : string) : M (option User) :=
  try_catch
    (user <- sql_users email ;;
     ret (hd_error user))
    (fun error =>
       console_error "Failed to fetch user:" ;;
       throw (JsError "Failed to fetch user.")).

(** [z.string().email()]. *)
Definition string_email (v : option string) : Parsed string :=
  match v with
  | Some s => if is_email s then Valid s else Invalid ["Invalid email"]
  | None => Invalid ["Required"]
  end.

(** [z.string().min(6)]. *)
Definition string_min (n : nat) (v : option string) : Parsed string :=
  match v with
  | Some s =>
      if Nat.leb n (String.length s) then Valid s
      else Invalid ["String must contain at least 6 character(s)"]
  | None => Invalid ["Required"]
  end.

(** [z.object({ email: z.string().email(), password: z.string().min(6) })]. *)
Definition credentials_schema (credentials : Credentials) :
  SafeParseReturn (string * string) :=
  match string_email (email credentials),
        string_min 6 (password credentials) with
  | Valid e, Valid p => Success (e, p)
  | pe, pp => Failure (issues_at "email" pe ++ issues_at "password" pp)
  end.

(** The inner option of the intermediate result is the value of an early
    [return]; [None] falls through to the end of the function. *)
Definition authorize (credentials : Credentials) : M (option User) :=
  let parsedCredentials := safeParse credentials_schema credentials in
  returned <-
    match parsedCredentials with
    | Success (email, password) =>
        user <- getUser email ;;
        match user with
        | None => ret (Some None)
        | Some user =>
            let passwordsMatch := bcrypt_compare password (user_password user) in
            if passwordsMatch then ret (Some (Some user)) else ret None
        end
    | Failure _ => ret None
    end ;;
  match returned with
  | Some result => ret result
  | None => console_log "Invalid Credentials" ;; ret None
  end.

(** The reading of the acceptance rule without the schema: a registered
    email and a password that [bcrypt.compare] accepts give the stored
    record. *)
Definition registered_with_correct_password_is_accepted
    (w : World) (e p : string) (u : User) : Prop :=
  rejects w (SELECT_users e) = false ->
  hd_error (select_users e (db w)) = Some u ->
  bcrypt_compare p (user_password u) = true ->
  fst (authorize {| email := Some e; password := Some p |} w) = Normal (Some u).

End Authorize.

End Auth.

(** ** [middleware.ts] *)

Module Middleware.

(** The fragment of regular expressions the matcher is written in. *)
Inductive regex :=
| Lit (s : string)
| AnyStar
| Alt (a b : regex)
| Seq (a b : regex)
| NegLookahead (a : regex)
| EndOfInput.

(** The line terminators below 256, which [.] does not match. *)
Definition is_line_terminator (c : ascii) : bool :=
  (Ascii.eqb c "010" || Ascii.eqb c "013")%char.

(** [.*] followed by the continuation [k]. *)
Fixpoint any_star (s : string) (k : string -> bool) : bool :=
  k s ||
  match s with
  | EmptyString => false
  | String c s' => negb (is_line_terminator c) && any_star s' k
  end.

(** Backtracking matching of [r] at the head of [s]; [k] decides on what
    is left. *)
Fixpoint matches_then (r : regex) (s : string) (k : string -> bool) : bool :=
  match r with
  | Lit l =>
      match Str.strip_prefix l s with
      | Some s' => k s'
      | None => false
      end
  | AnyStar => any_star s k
  | Alt a b => matches_then a s k || matches_then b s k
  | Seq a b => matches_then a s (fun s' => matches_then b s' k)
  | NegLookahead a => negb (matches_then a s (fun _ => true)) && k s
  | EndOfInput => Str.is_empty s && k s
  end.

(** The pattern is tested against the whole path. *)
Definition full_match (r : regex) (s : string) : bool :=
  matches_then r s Str.is_empty.

(** The only entry of [config.matcher], as the regular expression engine
    receives it. *)
Definition matcher_source : string :=
  "/((?!api|_next/static|_next/image|.*\.png$).*)".

(** [matcher_source] as a [regex]. *)
Definition matcher : regex :=
  Seq (Lit "/")
      (Seq (NegLookahead
              (Alt (Lit "api")
              (Alt (Lit "_next/static")
              (Alt (Lit "_next/image")
                   (Seq AnyStar (Seq (Lit ".png") EndOfInput))))))
           AnyStar).

Record Request := {
  pathname : string;
  session_token : option string
}.

Section Dispatch.

Variable Response : Type.

(** The default export [NextAuth(authConfig).auth]: the guard that
    resolves the session token of a request. Its configuration,
    [auth.config.ts], is not part of the sources at hand. *)
Variable auth : Request -> M Response.

(** The middleware is invoked for the paths [config.matcher] matches; the
    others go on to routing untouched ([None]). *)
Definition middleware (request : Request) : M (option Response) :=
  if full_match matcher (pathname request)
  then response <- auth request ;; ret (Some response)
  else ret None.

End Dispatch.

(** The paths the pattern is written to leave out: after the first slash
    they begin with [api], [_next/static] or [_next/image], or they end in
    [.png]. *)
Definition excluded (path : string) : Prop :=
  exists rest, path = "/" ++ rest /\
    (Str.starts_with "api" rest = true \/
     Str.starts_with "_next/static" rest = true \/
     Str.starts_with "_next/image" rest = true \/
     exists stem, rest = stem ++ ".png").

End Middleware.

(** ** Sample data for the examples *)

Module Sample.

Import FormData.

(** A crude stand-in for zod's email test: something, an [@], something. *)
Definition is_email (s : string) : bool :=
match String.index 0 "@" s with
| Some (S n) => Nat.ltb (S (S n)) (String.length s)
| _ => false
end.

(** A stand-in for bcrypt: the hash of a password is the password behind a
    tag. *)
Definition hash (plain : string) : string := "bcrypt:" ++ plain.
Definition bcrypt_compare (plain hashed : string) : bool :=
String.eqb hashed (hash plain).

Definition user : User :=
{| user_id := "u1"; user_email := "user@nextmail.com";
   user_password := hash "123456" |}.

(** A user provisioned with a five-character password. *)
Definition short_user : User :=
{| user_id := "u2"; user_email := "short@nextmail.com";
   user_password := hash "12345" |}.

Definition store : Db :=
{| invoices := []; users := [user; short_user]; next_id := 1 |}.

Definition online : World :=
{| db := store; rejects := fun _ => false;
   now := "2026-11-02T08:23:00.000Z"; events := [] |}.

Definition offline : World :=
{| db := store; rejects := fun _ => true;
   now := "2026-11-02T08:23:00.000Z"; events := [] |}.

Definition form (amount : string) : FormData.t :=
[("customerId", Text "C"); ("amount", Text amount); ("status", Text "pending")].

Definition fields : Actions.Fields :=
{| Actions.customerId := "C";
   Actions.amount := JsNumber.StringToNumber "125.50";
   Actions.status := pending |}.

Definition no_state : Actions.State :=
{| Actions.errors := None; Actions.message := None |}.

End Sample.

(** ** The earlier revisions of [app/lib/actions.ts] *)

Module ActionsEarlier.

Import FormData Zod.

(** [z.coerce.number()], with no further check. *)
Definition coerce_number (v : option EntryValue) : Parsed JsNumber.number :=
  let data := coerce v in
  if JsNumber.isNaN data then Invalid ["Expected number, received nan"]
  else Valid data.

(** The fields of the earlier [FormSchema]: no message of its own, no lower
    bound on the amount. *)
Definition FormSchema_customerId : option EntryValue -> Parsed string :=
  string_ None.

Definition FormSchema_amount : option EntryValue -> Parsed JsNumber.number :=
  coerce_number.

Definition FormSchema_status (v : option EntryValue) : Parsed InvoiceStatus :=
  enum_status ("Expected 'pending' | 'paid', received " ++ received v) v.

Definition FormSchema_omit_id_date (raw : Actions.RawFields) :
  SafeParseReturn Actions.Fields :=
  match FormSchema_customerId (Actions.raw_customerId raw),
        FormSchema_amount (Actions.raw_amount raw),
        FormSchema_status (Actions.raw_status raw) with
  | Valid c, Valid a, Valid s =>
      Success {| Actions.customerId := c; Actions.amount := a; Actions.status := s |}
  | pc, pa, ps =>
      Failure (issues_at "customerId" pc ++ issues_at "amount" pa
                 ++ issues_at "status" ps)
  end.

Definition CreateInvoice := FormSchema_omit_id_date.
Definition UpdateInvoice := FormSchema_omit_id_date.

Section Parse.

(** The message of the [ZodError] that [parse] throws for a list of issues,
    which zod composes. *)
Variable ZodError_message : list Issue -> string.

(** [schema.parse(input)]: the data, or a thrown [ZodError]. *)
Definition parse {I A} (schema : I -> SafeParseReturn A) (input : I) : M A :=
  match schema input with
  | Success data => ret data
  | Failure error => throw (JsError (ZodError_message error))
  end.

(** *** The revision with [parse] and a [try]/[catch] around the statement *)

Definition createInvoice_caught (formData : FormData.t) : M Actions.State :=
  data <- parse CreateInvoice (Actions.raw_of formData) ;;
  let amountInCents := JsNumber.mul (Actions.amount data) (JsNumber.of_Z 100) in
  iso <- toISOString_now ;;
  let date := Str.before "T" iso in
  returned <-
    try_catch
      (sql (INSERT_invoices (Actions.customerId data) amountInCents
              (Actions.status data) date) ;;
       ret None)
      (fun error =>
         ret (Some {| Actions.errors := None;
                      Actions.message :=
                        Some "Database Error: Failed to create invoice." |})) ;;
  match returned with
  | Some result => ret result
  | None =>
      revalidatePath "/dashboard/invoices" ;;
      redirect "/dashboard/invoices"
  end.

Definition updateInvoice_caught (id : string) (formData : FormData.t) :
  M Actions.State :=
  data <- parse UpdateInvoice (Actions.raw_of formData) ;;
  let amountInCents := JsNumber.mul (Actions.amount data) (JsNumber.of_Z 100) in
  returned <-
    try_catch
      (sql (UPDATE_invoices (Actions.customerId data) amountInCents
              (Actions.status data) id) ;;
       ret None)
      (fun error =>
         ret (Some {| Actions.errors := None;
                      Actions.message :=
                        Some "Database Error: Failed to Update Invoice." |})) ;;
  match returned with
  | Some result => ret result
  | None =>
      revalidatePath "/dashboard/invoices" ;;
      redirect "/dashboard/invoices"
  end.

(** *** The first revision: no [try]/[catch] *)

Definition createInvoice_plain (formData : FormData.t) : M unit :=
  data <- parse CreateInvoice (Actions.raw_of formData) ;;
  let amountInCents := JsNumber.mul (Actions.amount data) (JsNumber.of_Z 100) in
  iso <- toISOString_now ;;
  let date := Str.before "T" iso in
  sql (INSERT_invoices (Actions.customerId data) amountInCents
         (Actions.status data) date) ;;
  revalidatePath "/dashboard/invoices" ;;
  redirect "/dashboard/invoices".

Definition updateInvoice_plain (id : string) (formData : FormData.t) : M unit :=
  data <- parse UpdateInvoice (Actions.raw_of formData) ;;
  let amountInCents := JsNumber.mul (Actions.amount data) (JsNumber.of_Z 100) in
  sql (UPDATE_invoices (Actions.customerId data) amountInCents
         (Actions.status data) id) ;;
  revalidatePath "/dashboard/invoices" ;;
  redirect "/dashboard/invoices".

End Parse.

(** The first [deleteInvoice]: the statement, then the invalidation. *)
Definition deleteInvoice_plain (id : string) : M unit :=
  sql (DELETE_invoices id) ;;
  revalidatePath "/dashboard/invoices".

End ActionsEarlier.

(** ** [app/dashboard/invoices/[id]/edit/page.tsx] *)

Module EditPage.

Record Breadcrumb := {
  label : string;
  href : string;
  active : option bool
}.

(** The [breadcrumbs] the page passes to [Breadcrumbs]. *)
Definition breadcrumbs (id : string) : list Breadcrumb :=
  [ {| label := "Invoices"; href := "/dashboard/invoices"; active := None |};
    {| label := "Edit Invoice";
       href := "/dashboard/invoices/" ++ id ++ "/edit";
       active := Some true |} ].

End EditPage.

(** ** [URLSearchParams] *)

Module URLSearchParams.

(** The list of name-value pairs of the object. *)
Definition t : Type := list (string * string).

Definition named (name : string) (p : string * string) : bool :=
  String.eqb (fst p) name.

Definition has (params : t) (name : string) : bool := existsb (named name) params.

(** [params.get(name)]: the value of the first pair under [name]. *)
Fixpoint get (params : t) (name : string) : option string :=
  match params with
  | [] => None
  | (k, v) :: rest => if String.eqb k name then Some v else get rest name
  end.

(** [params.delete(name)]: every pair under [name] goes. *)
Definition delete (params : t) (name : string) : t :=
  filter (fun p => negb (named name p)) params.

(** [params.set(name, value)]: the first pair under [name] takes the value
    and the others under [name] go; with no such pair, one is appended. *)
Fixpoint set_first (params : t) (name value : string) : t :=
  match params with
  | [] => []
  | (k, v) :: rest =>
      if String.eqb k name then (k, value) :: delete rest name
      else (k, v) :: set_first rest name value
  end.

Definition set (params : t) (name value : string) : t :=
  if has params name then set_first params name value
  else (params ++ [(name, value)])%list.

(** *** [params.toString()]: the application/x-www-form-urlencoded serializer *)

Definition hex_digit (n : N) : ascii :=
  ascii_of_N (if (n <? 10)%N then 48 + n else 55 + n).

(** [%XX], with upper-case digits. *)
Definition percent (b : N) : string :=
  String "%" (String (hex_digit (b / 16)) (String (hex_digit (b mod 16)) EmptyString)).

(** The bytes of the UTF-8 encoding of a code unit below 256. *)
Definition utf8 (c : ascii) : list N :=
  let n := N_of_ascii c in
  if (n <? 128)%N then [n] else [(192 + n / 64)%N; (128 + n mod 64)%N].

(** The bytes left as they are: ASCII letters and digits, [*], [-], [.]
    and [_]. *)
Definition is_unreserved (b : N) : bool :=
  ((48 <=? b) && (b <=? 57) || (65 <=? b) && (b <=? 90)
   || (97 <=? b) && (b <=? 122)
   || (b =? 42) || (b =? 45) || (b =? 46) || (b =? 95))%N.

Definition serialize_byte (b : N) : string :=
  if (b =? 32)%N then "+"
  else if is_unreserved b then String (ascii_of_N b) EmptyString
  else percent b.

Fixpoint serialize_bytes (bytes : list N) : string :=
  match bytes with
  | [] => EmptyString
  | b :: rest => serialize_byte b ++ serialize_bytes rest
  end.

Fixpoint urlencode (s : string) : string :=
  match s with
  | EmptyString => EmptyString
  | String c s' => serialize_bytes (utf8 c) ++ urlencode s'
  end.

Definition serialize_pair (p : string * string) : string :=
  urlencode (fst p) ++ "=" ++ urlencode (snd p).

Fixpoint toString (params : t) : string :=
  match params with
  | [] => EmptyString
  | [p] => serialize_pair p
  | p :: rest => serialize_pair p ++ "&" ++ toString rest
  end.

End URLSearchParams.

(** ** [app/ui/search.tsx] *)

Module Search.

(** What [handleSearch] leaves in [params]: a copy of the current search
    parameters in which [query] is set to the term, or deleted when the term
    is the empty string. *)
Definition params_after (searchParams : URLSearchParams.t) (term : string) :
  URLSearchParams.t :=
  let params := searchParams in
  if Str.is_empty term then URLSearchParams.delete params "query"
  else URLSearchParams.set params "query" term.

(** [handleSearch(term)]: the URL it hands to [replace]. *)
Definition handleSearch (searchParams : URLSearchParams.t) (pathname : string)
    (term : string) : string :=
  pathname ++ "?" ++ URLSearchParams.toString (params_after searchParams term).

End Search.

(** ** Reading a query string back *)

(** [useSearchParams] gives the parameters of the current URL: its query
    string read by the application/x-www-form-urlencoded parser. *)
Module QueryString.

(** The pieces of [s] between the occurrences of [sep]. *)
Fixpoint split_on (sep : ascii) (s : string) : list string :=
  match s with
  | EmptyString => [EmptyString]
  | String c s' =>
      if Ascii.eqb c sep then EmptyString :: split_on sep s'
      else
        match split_on sep s' with
        | piece :: pieces => String c piece :: pieces
        | [] => [String c EmptyString]
        end
  end.

(** [s] up to its first [sep] and what follows it; all of [s] and the empty
    string when [sep] does not occur. *)
Fixpoint cut_at (sep : ascii) (s : string) : string * string :=
  match s with
  | EmptyString => (EmptyString, EmptyString)
  | String c s' =>
      if Ascii.eqb c sep then (EmptyString, s')
      else let (name, value) := cut_at sep s' in (String c name, value)
  end.

Fixpoint plus_to_space (s : string) : string :=
  match s with
  | EmptyString => EmptyString
  | String c s' => String (if Ascii.eqb c "+" then " "%char else c) (plus_to_space s')
  end.

Definition hex_value (c : ascii) : option N :=
  let n := N_of_ascii c in
  if ((48 <=? n) && (n <=? 57))%N then Some (n - 48)%N
  else if ((65 <=? n) && (n <=? 70))%N then Some (n - 55)%N
  else if ((97 <=? n) && (n <=? 102))%N then Some (n - 87)%N
  else None.

(** Percent-decoding: [%] followed by two hexadecimal digits is the byte
    they write; any other character is its own byte. *)
Fixpoint percent_decode (s : string) : list N :=
  match s with
  | EmptyString => []
  | String c tail =>
      if Ascii.eqb c "%" then
        match tail with
        | String h (String l rest) =>
            match hex_value h, hex_value l with
            | Some a, Some b => (16 * a + b)%N :: percent_decode rest
            | _, _ => 37%N :: percent_decode tail
            end
        | _ => 37%N :: percent_decode tail
        end
      else N_of_ascii c :: percent_decode tail
  end.

(** UTF-8 decoding, for the texts whose code points are below 256; [None]
    for any other sequence of bytes, whose text has no place among the
    strings here. *)
Fixpoint utf8_decode (bytes : list N) : option string :=
  match bytes with
  | [] => Some EmptyString
  | b :: rest =>
      if (b <? 128)%N then
        option_map (String (ascii_of_N b)) (utf8_decode rest)
      else
        match rest with
        | b2 :: rest' =>
            if (((b =? 194) || (b =? 195)) && (128 <=? b2) && (b2 <? 192))%N
            then option_map (String (ascii_of_N ((b - 192) * 64 + (b2 - 128))))
                   (utf8_decode rest')
            else None
        | [] => None
        end
  end.

Definition decode (s : string) : option string :=
  utf8_decode (percent_decode (plus_to_space s)).

Definition parse_pair (s : string) : option (string * string) :=
  let (name, value) := cut_at "=" s in
  match decode name, decode value with
  | Some n, Some v => Some (n, v)
  | _, _ => None
  end.

(** The empty pieces are skipped. *)
Fixpoint parse_pieces (pieces : list string) : option URLSearchParams.t :=
  match pieces with
  | [] => Some []
  | piece :: rest =>
      if Str.is_empty piece then parse_pieces rest
      else
        match parse_pair piece, parse_pieces rest with
        | Some p, Some ps => Some (p :: ps)
        | _, _ => None
        end
  end.

Definition parse (query : string) : option URLSearchParams.t :=
  parse_pieces (split_on "&" query).

End QueryString.

(** ** Predicates on strings used in the statements *)

Module Chars.

(** No character of [s] is a line terminator. *)
Fixpoint single_line (s : string) : bool :=
  match s with
  | EmptyString => true
  | String c s' => negb (Middleware.is_line_terminator c) && single_line s'
  end.

(** The number of occurrences of [c] in [s]. *)
Fixpoint count (c : ascii) (s : string) : nat :=
  match s with
  | EmptyString => 0
  | String d s' => (if Ascii.eqb d c then 1 else 0) + count c s'
  end.

Fixpoint all (f : ascii -> bool) (s : string) : bool :=
  match s with
  | EmptyString => true
  | String c s' => f c && all f s'
  end.

(** The characters an encoded name or value is made of: the unreserved
    ones, [+] and [%]. *)
Definition is_encoded_char (c : ascii) : bool :=
  URLSearchParams.is_unreserved (N_of_ascii c)
  || Ascii.eqb c "+" || Ascii.eqb c "%".

End Chars.

(** ** More sample data *)

Module Examples.

Import FormData.

Definition first_invoice : InvoiceRow :=
  {| row_id := "1"; row_customer_id := "C"; row_amount := JsNumber.of_Z 12550;
     row_status := pending; row_date := "2026-10-30" |}.

Definition second_invoice : InvoiceRow :=
  {| row_id := "2"; row_customer_id := "D"; row_amount := JsNumber.of_Z 800;
     row_status := paid; row_date := "2026-10-31" |}.

(** A store with two invoices. *)
Definition billing : World :=
  {| db := {| invoices := [first_invoice; second_invoice];
              users := [Sample.user]; next_id := 3 |};
     rejects := fun _ => false;
     now := "2026-11-02T08:23:00.000Z"; events := [] |}.

(** A stand-in for the message zod gives its error. *)
Definition zod_message (issues : list Zod.Issue) : string :=
  String.concat "; " (map Zod.message issues).

End Examples.

(** * Properties *)

(** ** Strings *)

Module StrFacts.

Import Str.

Lemma strip_prefix_app p s : strip_prefix p (p ++ s) = Some s.
Proof.
  induction p as [|a p IH]; simpl; [reflexivity|].
  now rewrite Ascii.eqb_refl.
Qed.


Lemma starts_with_app p s : starts_with p (p ++ s) = true.
Proof. unfold starts_with. now rewrite strip_prefix_app. Qed.

End StrFacts.

(** ** The monad *)

Lemma bind_normal {A B} (m : M A) (k : A -> M B) w a w' :
  m w = (Normal a, w') -> bind m k w = k a w'.
Proof. intros H. unfold bind. now rewrite H. Qed.

Lemma bind_thrown {A B} (m : M A) (k : A -> M B) w e w' :
  m w = (Thrown e, w') -> bind m k w = (Thrown e, w').
Proof. intros H. unfold bind. now rewrite H. Qed.

(** A [redirect] inside a [try] block would be handed to the [catch]. *)
Lemma try_catch_catches_redirect {A} (path : string) (handler : Exn -> M A) w :
  try_catch (redirect path) handler w
  = handler (NextRedirect path) (emit (ERedirect path) w).
Proof. reflexivity. Qed.

Lemma sql_rejected s w :
  rejects w s = true -> sql s w = (Thrown SqlError, emit (ESql s) w).
Proof. intros H. unfold sql. now rewrite H. Qed.

Lemma sql_accepted s w :
  rejects w s = false ->
  sql s w = (Normal tt, with_db (apply_statement s (db w)) (emit (ESql s) w)).
Proof. intros H. unfold sql. now rewrite H. Qed.

(** ** Server actions *)

Section ActionsFacts.

Import FormData Zod Actions.

Lemma createInvoice_validated prevState formData data w :
  safeParse CreateInvoice (raw_of formData) = Success data ->
  createInvoice prevState formData w =
    if rejects w (insert_of data w)
    then (Normal (database_error "Database Error: Failed to create invoice."),
          emit (ESql (insert_of data w)) w)
    else (Thrown (NextRedirect invoices_path),
          emit (ERedirect invoices_path)
            (emit (ERevalidatePath invoices_path)
               (with_db (apply_statement (insert_of data w) (db w))
                  (emit (ESql (insert_of data w)) w)))).
Proof.
  intros H. unfold createInvoice. rewrite H.
  unfold bind, try_catch, toISOString_now, sql. fold (insert_of data w).
  destruct (rejects w (insert_of data w)); reflexivity.
Qed.

Lemma updateInvoice_validated id prevState formData data w :
  safeParse UpdateInvoice (raw_of formData) = Success data ->
  updateInvoice id prevState formData w =
    if rejects w (update_of id data)
    then (Normal (database_error "Database Error: Failed to Update Invoice."),
          emit (ESql (update_of id data)) w)
    else (Thrown (NextRedirect invoices_path),
          emit (ERedirect invoices_path)
            (emit (ERevalidatePath invoices_path)
               (with_db (apply_statement (update_of id data) (db w))
                  (emit (ESql (update_of id data)) w)))).
Proof.
  intros H. unfold updateInvoice. rewrite H.
  unfold bind, try_catch, sql. fold (update_of id data).
  destruct (rejects w (update_of id data)); reflexivity.
Qed.

Lemma createInvoice_invalid prevState formData error w :
  safeParse CreateInvoice (raw_of formData) = Failure error ->
  createInvoice prevState formData w =
    (Normal {| errors := Some (flatten_fieldErrors error);
               message := Some "Missing Fields. Failed to Create Invoice." |}, w).
Proof. intros H. unfold createInvoice. now rewrite H. Qed.

Lemma updateInvoice_invalid id prevState formData error w :
  safeParse UpdateInvoice (raw_of formData) = Failure error ->
  updateInvoice id prevState formData w =
    (Normal {| errors := Some (flatten_fieldErrors error);
               message := Some "Missing Fields. Failed to Update Invoice." |}, w).
Proof. intros H. unfold updateInvoice. now rewrite H. Qed.

(** *** Validation failures *)

Lemma filter_issues_other {A} (f g : string) (p : Parsed A) :
  String.eqb f g = false ->
  filter (fun i => String.eqb (path i) g) (issues_at f p) = [].
Proof.
  intros H. destruct p as [a|ms]; simpl; [reflexivity|].
  induction ms as [|m ms IH]; simpl; [reflexivity|].
  now rewrite H.
Qed.

Lemma filter_issues_same {A} (f : string) (p : Parsed A) :
  filter (fun i => String.eqb (path i) f) (issues_at f p) = issues_at f p.
Proof.
  destruct p as [a|ms]; simpl; [reflexivity|].
  induction ms as [|m ms IH]; simpl; [reflexivity|].
  rewrite String.eqb_refl. now f_equal.
Qed.

(** When the amount is turned down with [text], the schema fails and [text]
    is the one message under [amount], whatever the other fields are. *)
Lemma schema_fails_on_amount (raw : RawFields) (text : string) :
  FormSchema_amount (raw_amount raw) = Invalid [text] ->
  exists error,
    FormSchema_omit_id_date raw = Failure error /\
    errors_amount (flatten_fieldErrors error) = Some [text].
Proof.
  intros H. unfold FormSchema_omit_id_date. rewrite H.
  exists (issues_at "customerId" (FormSchema_customerId (raw_customerId raw))
            ++ issues_at "amount" (@Invalid JsNumber.number [text])
            ++ issues_at "status" (FormSchema_status (raw_status raw)))%list.
  split.
  - destruct (FormSchema_customerId (raw_customerId raw));
      destruct (FormSchema_status (raw_status raw)); reflexivity.
  - unfold flatten_fieldErrors, errors_amount, fieldErrors.
    rewrite !filter_app.
    rewrite (filter_issues_other "customerId" "amount") by reflexivity.
    rewrite (filter_issues_other "status" "amount") by reflexivity.
    rewrite filter_issues_same. reflexivity.
Qed.

(** What [Number] makes of a string that is not a numeric literal: +0 when
    only white space is there, NaN otherwise. *)
Lemma coerce_non_numeric (s : string) :
  JsNumber.is_numeric s = false ->
  coerce (Some (Text s)) =
    if Str.is_empty (JsNumber.trim s) then JsNumber.pos_zero else JsNumber.NaN.
Proof.
  unfold JsNumber.is_numeric, coerce, JsNumber.StringToNumber.
  destruct (JsNumber.trim s) as [|c t]; [reflexivity|].
  destruct (JsNumber.numeric_literal (String c t)); [discriminate|reflexivity].
Qed.

Lemma amount_non_numeric (s : string) :
  JsNumber.is_numeric s = false ->
  FormSchema_amount (Some (Text s)) =
    Invalid [if Str.is_empty (JsNumber.trim s)
             then amount_too_small else amount_not_a_number].
Proof.
  intros H. unfold FormSchema_amount, coerce_number_gt.
  rewrite (coerce_non_numeric s H).
  destruct (Str.is_empty (JsNumber.trim s)); reflexivity.
Qed.

(** *** The claims on the server actions *)

(** C1. For every invoice id [deleteInvoice] throws its error before the
    delete statement is reached: the call ends in the thrown
    ['failed to delete invoice'] and the world is the one it started in, so
    the invoices are unchanged and no statement, no cache invalidation and
    no redirect has been performed. *)
Theorem deleteInvoice_faults_before_the_statement (id : string) (w : World) :
  deleteInvoice id w = (Thrown (JsError "failed to delete invoice"), w) /\
  invoices (db (snd (deleteInvoice id w))) = invoices (db w) /\
  events (snd (deleteInvoice id w)) = events w.
Proof. repeat split. Qed.

(** C2. On validated input, [createInvoice] and [updateInvoice] answer a
    rejected statement with a result whose message is a database error, not
    with a throw; when the statement is accepted the call ends in the
    navigation signal of [redirect], thrown after the [try]/[catch] and so
    not caught by it. *)
Theorem store_failure_is_a_message_and_redirect_escapes
    (id : string) (prevState : State) (formData : FormData.t)
    (data : Fields) (w : World) :
  safeParse CreateInvoice (raw_of formData) = Success data ->
  (rejects w (insert_of data w) = true ->
     exists result,
       fst (createInvoice prevState formData w) = Normal result /\
       is_database_error result = true) /\
  (rejects w (insert_of data w) = false ->
     fst (createInvoice prevState formData w) = Thrown (NextRedirect invoices_path)) /\
  (rejects w (update_of id data) = true ->
     exists result,
       fst (updateInvoice id prevState formData w) = Normal result /\
       is_database_error result = true) /\
  (rejects w (update_of id data) = false ->
     fst (updateInvoice id prevState formData w) = Thrown (NextRedirect invoices_path)).
Proof.
  intros H.
  rewrite (createInvoice_validated prevState formData data w H).
  rewrite (updateInvoice_validated id prevState formData data w H).
  repeat split; intros R; rewrite R; simpl; try reflexivity.
  - now exists (database_error "Database Error: Failed to create invoice.").
  - now exists (database_error "Database Error: Failed to Update Invoice.").
Qed.

(** C3. On validated input, the effects of [createInvoice] and of
    [updateInvoice] are, in this order: the statement, and then, only when it
    was accepted, the invalidation of the invoices listing followed by the
    redirect to it. A rejected statement is followed by neither. *)
Theorem invalidation_precedes_redirect
    (id : string) (prevState : State) (formData : FormData.t)
    (data : Fields) (w : World) :
  safeParse CreateInvoice (raw_of formData) = Success data ->
  events (snd (createInvoice prevState formData w)) =
    (events w ++
      (if rejects w (insert_of data w)
       then [ESql (insert_of data w)]
       else [ESql (insert_of data w);
             ERevalidatePath "/dashboard/invoices";
             ERedirect "/dashboard/invoices"]))%list /\
  events (snd (updateInvoice id prevState formData w)) =
    (events w ++
      (if rejects w (update_of id data)
       then [ESql (update_of id data)]
       else [ESql (update_of id data);
             ERevalidatePath "/dashboard/invoices";
             ERedirect "/dashboard/invoices"]))%list.
Proof.
  intros H.
  rewrite (createInvoice_validated prevState formData data w H).
  rewrite (updateInvoice_validated id prevState formData data w H).
  split.
  - destruct (rejects w (insert_of data w)); simpl; [reflexivity|].
    now rewrite <- !app_assoc.
  - destruct (rejects w (update_of id data)); simpl; [reflexivity|].
    now rewrite <- !app_assoc.
Qed.

(** C4, as the code has it. An amount that is not a numeric literal is
    coerced to +0 when it is empty or white space only, and is then turned
    down by the [gt(0)] check; any other such amount is coerced to NaN and is
    turned down by the number check. Either way [createInvoice] and
    [updateInvoice] return the field errors, with that one message under
    [amount], and leave the world as it was: no statement is sent. *)
Theorem non_numeric_amount_never_reaches_the_store
    (id : string) (prevState : State) (formData : FormData.t)
    (s : string) (w : World) :
  get formData "amount" = Some (Text s) ->
  JsNumber.is_numeric s = false ->
  let text := if Str.is_empty (JsNumber.trim s)
              then amount_too_small else amount_not_a_number in
  coerce (Some (Text s)) =
    (if Str.is_empty (JsNumber.trim s)
     then JsNumber.pos_zero else JsNumber.NaN) /\
  exists error,
    errors_amount (flatten_fieldErrors error) = Some [text] /\
    createInvoice prevState formData w =
      (Normal {| errors := Some (flatten_fieldErrors error);
                 message := Some "Missing Fields. Failed to Create Invoice." |}, w) /\
    updateInvoice id prevState formData w =
      (Normal {| errors := Some (flatten_fieldErrors error);
                 message := Some "Missing Fields. Failed to Update Invoice." |}, w).
Proof.
  intros G N text. split; [now apply coerce_non_numeric|].
  destruct (schema_fails_on_amount (raw_of formData) text) as (error & F & E).
  - simpl. rewrite G. now apply amount_non_numeric.
  - exists error. split; [exact E|]. split.
    + now apply createInvoice_invalid.
    + now apply updateInvoice_invalid.
Qed.

Lemma non_numeric_amount_never_reaches_the_store_witness :
  get (Sample.form "abc") "amount" = Some (Text "abc") /\
  JsNumber.is_numeric "abc" = false /\
  coerce (Some (Text "abc")) = JsNumber.NaN /\
  exists error,
    errors_amount (flatten_fieldErrors error) = Some [amount_not_a_number] /\
    createInvoice Sample.no_state (Sample.form "abc") Sample.online =
      (Normal {| errors := Some (flatten_fieldErrors error);
                 message := Some "Missing Fields. Failed to Create Invoice." |},
       Sample.online) /\
    updateInvoice "1" Sample.no_state (Sample.form "abc") Sample.online =
      (Normal {| errors := Some (flatten_fieldErrors error);
                 message := Some "Missing Fields. Failed to Update Invoice." |},
       Sample.online).
Proof.
  split; [reflexivity|]. split; [reflexivity|].
  apply (non_numeric_amount_never_reaches_the_store
           "1" Sample.no_state (Sample.form "abc") "abc" Sample.online);
    reflexivity.
Defined.

(** C4, as it is worded, fails at the amount [abc]: it is not a numeric
    literal, and it is coerced to NaN, not to 0, so that the message it is
    turned down with is not the one of the [gt(0)] check. *)
Lemma non_numeric_amount_abc_is_not_zero :
  ~ non_numeric_amount_becomes_zero "abc".
Proof.
  unfold non_numeric_amount_becomes_zero. intros H.
  destruct (H eq_refl) as [Z _]. vm_compute in Z. discriminate Z.
Qed.

(** *** The amount in minor units *)

Lemma amount_125_50 :
  FormSchema_amount (Some (Text "125.50")) = Valid (JsNumber.StringToNumber "125.50").
Proof. vm_compute. reflexivity. Qed.

Lemma cents_125_50 :
  JsNumber.mul (JsNumber.StringToNumber "125.50") (JsNumber.of_Z 100)
  = JsNumber.of_Z 12550.
Proof. vm_compute. reflexivity. Qed.

(** C9. Creating an invoice from customerId [C], amount ["125.50"] and status
    ["pending"] sends the insert with the amount 12550, the status pending and
    the date part of the clock's reading; when the store accepts it, the
    invoices gain exactly that row. *)
Theorem createInvoice_125_50_persists_12550_cents
    (C : string) (prevState : State) (formData : FormData.t) (w : World) :
  get formData "customerId" = Some (Text C) ->
  get formData "amount" = Some (Text "125.50") ->
  get formData "status" = Some (Text "pending") ->
  let date := Str.before "T" (now w) in
  let statement := INSERT_invoices C (JsNumber.of_Z 12550) pending date in
  JsNumber.to_Z (JsNumber.of_Z 12550) = Some 12550%Z /\
  hd_error (skipn (List.length (events w))
              (events (snd (createInvoice prevState formData w))))
    = Some (ESql statement) /\
  (rejects w statement = false ->
   invoices (db (snd (createInvoice prevState formData w))) =
     (invoices (db w) ++
        [{| row_id := fresh_id (db w); row_customer_id := C;
            row_amount := JsNumber.of_Z 12550; row_status := pending;
            row_date := date |}])%list).
Proof.
  intros HC HA HS date statement.
  assert (V : safeParse CreateInvoice (raw_of formData) =
              Success {| customerId := C;
                         amount := JsNumber.StringToNumber "125.50";
                         status := pending |}).
  { unfold safeParse, CreateInvoice, FormSchema_omit_id_date, raw_of. simpl.
    rewrite HC, HA, HS, amount_125_50. reflexivity. }
  rewrite (createInvoice_validated prevState formData _ w V).
  unfold insert_of. simpl customerId. simpl amount. simpl status.
  rewrite cents_125_50. fold date. fold statement.
  split; [reflexivity|]. split.
  - destruct (rejects w statement); simpl;
      rewrite <- ?app_assoc, skipn_app, skipn_all, Nat.sub_diag; reflexivity.
  - intros R. rewrite R. reflexivity.
Qed.

Lemma createInvoice_125_50_persists_12550_cents_witness :
  rejects Sample.online
    (INSERT_invoices "C" (JsNumber.of_Z 12550) pending "2026-11-02") = false /\
  invoices (db (snd (createInvoice Sample.no_state (Sample.form "125.50")
                       Sample.online))) =
    [{| row_id := "1"; row_customer_id := "C";
        row_amount := JsNumber.of_Z 12550; row_status := pending;
        row_date := "2026-11-02" |}].
Proof.
  split; [reflexivity|].
  apply (createInvoice_125_50_persists_12550_cents
           "C" Sample.no_state (Sample.form "125.50") Sample.online);
    reflexivity.
Defined.

Lemma store_failure_is_a_message_and_redirect_escapes_witness :
  safeParse CreateInvoice (raw_of (Sample.form "125.50")) = Success Sample.fields /\
  (exists result,
     fst (createInvoice Sample.no_state (Sample.form "125.50") Sample.offline)
       = Normal result /\
     is_database_error result = true) /\
  fst (createInvoice Sample.no_state (Sample.form "125.50") Sample.online)
    = Thrown (NextRedirect invoices_path).
Proof.
  assert (V : safeParse CreateInvoice (raw_of (Sample.form "125.50"))
              = Success Sample.fields) by (vm_compute; reflexivity).
  split; [exact V|]. split.
  - apply (store_failure_is_a_message_and_redirect_escapes
             "1" Sample.no_state (Sample.form "125.50") Sample.fields
             Sample.offline V).
    reflexivity.
  - apply (store_failure_is_a_message_and_redirect_escapes
             "1" Sample.no_state (Sample.form "125.50") Sample.fields
             Sample.online V).
    reflexivity.
Defined.

Lemma invalidation_precedes_redirect_witness :
  safeParse CreateInvoice (raw_of (Sample.form "125.50")) = Success Sample.fields /\
  events (snd (createInvoice Sample.no_state (Sample.form "125.50") Sample.online))
    = [ESql (insert_of Sample.fields Sample.online);
       ERevalidatePath "/dashboard/invoices";
       ERedirect "/dashboard/invoices"] /\
  events (snd (updateInvoice "1" Sample.no_state (Sample.form "125.50") Sample.offline))
    = [ESql (update_of "1" Sample.fields)].
Proof.
  assert (V : safeParse CreateInvoice (raw_of (Sample.form "125.50"))
              = Success Sample.fields) by (vm_compute; reflexivity).
  split; [exact V|]. split.
  - apply (invalidation_precedes_redirect
             "1" Sample.no_state (Sample.form "125.50") Sample.fields
             Sample.online V).
  - apply (invalidation_precedes_redirect
             "1" Sample.no_state (Sample.form "125.50") Sample.fields
             Sample.offline V).
Defined.

End ActionsFacts.

(** ** Credentials *)

Section AuthFacts.

Import Zod Auth.

Variable is_email : string -> bool.
Variable bcrypt_compare : string -> string -> bool.

Local Abbreviation authorize := (Auth.authorize is_email bcrypt_compare).
Local Abbreviation getUser := Auth.getUser.

Lemma getUser_rejected e w :
  rejects w (SELECT_users e) = true ->
  getUser e w =
    (Thrown (JsError "Failed to fetch user."),
     emit (EConsoleError "Failed to fetch user:") (emit (ESql (SELECT_users e)) w)).
Proof.
  intros R. unfold Auth.getUser, try_catch, bind, sql_users. now rewrite R.
Qed.

Lemma getUser_accepted e w :
  rejects w (SELECT_users e) = false ->
  getUser e w =
    (Normal (hd_error (select_users e (db w))), emit (ESql (SELECT_users e)) w).
Proof.
  intros R. unfold Auth.getUser, try_catch, bind, sql_users. now rewrite R.
Qed.

Lemma schema_well_formed e p :
  is_email e = true -> 6 <= String.length p ->
  credentials_schema is_email {| email := Some e; password := Some p |}
  = Success (e, p).
Proof.
  intros E L. unfold credentials_schema, string_email, string_min.
  cbn [email password]. rewrite E. apply Nat.leb_le in L. now rewrite L.
Qed.

Lemma authorize_well_formed e p w :
  is_email e = true -> 6 <= String.length p ->
  authorize {| email := Some e; password := Some p |} w =
    match getUser e w with
    | (Thrown x, w') => (Thrown x, w')
    | (Normal None, w') => (Normal None, w')
    | (Normal (Some u), w') =>
        if bcrypt_compare p (user_password u) then (Normal (Some u), w')
        else (Normal None, emit (EConsoleLog "Invalid Credentials") w')
    end.
Proof.
  intros E L. unfold Auth.authorize, safeParse.
  rewrite (schema_well_formed e p E L). unfold bind.
  destruct (getUser e w) as [[[u|]|x] w']; try reflexivity.
  destruct (bcrypt_compare p (user_password u)); reflexivity.
Qed.

Lemma authorize_malformed credentials issues w :
  credentials_schema is_email credentials = Failure issues ->
  authorize credentials w
  = (Normal None, emit (EConsoleLog "Invalid Credentials") w).
Proof. intros F. unfold Auth.authorize, safeParse. now rewrite F. Qed.

Lemma first_row_has_the_email e d u :
  hd_error (select_users e d) = Some u -> user_email u = e.
Proof.
  unfold select_users. intros H.
  assert (I : In u (filter (fun u => String.eqb (user_email u) e) (users d))).
  { destruct (filter _ (users d)) as [|a l]; [discriminate|].
    inversion H. now left. }
  apply filter_In in I. now apply String.eqb_eq.
Qed.

(** C5. For a well-formed pair, a lookup the store rejects makes [authorize]
    throw the error of [getUser], which is not the rejection [null]; a lookup
    that succeeds and finds no row makes it return [null]. *)
Theorem lookup_failure_is_thrown_and_unknown_email_is_rejected
    (e p : string) (w : World) :
  is_email e = true -> 6 <= String.length p ->
  (rejects w (SELECT_users e) = true ->
   fst (authorize {| email := Some e; password := Some p |} w)
     = Thrown (JsError "Failed to fetch user.")) /\
  (rejects w (SELECT_users e) = false ->
   select_users e (db w) = [] ->
   fst (authorize {| email := Some e; password := Some p |} w) = Normal None).
Proof.
  intros E L. rewrite (authorize_well_formed e p w E L). split.
  - intros R. now rewrite (getUser_rejected e w R).
  - intros R N. rewrite (getUser_accepted e w R), N. reflexivity.
Qed.

(** C6, as the code has it. When the lookup succeeds and finds the user:
    if the pair is well-formed and [bcrypt.compare] accepts the password, the
    result is the first row found, whose email is the one submitted; if
    [bcrypt.compare] does not accept the password, the result is [null]. *)
Theorem registered_user_is_accepted_with_a_well_formed_correct_password
    (e p : string) (u : User) (w : World) :
  rejects w (SELECT_users e) = false ->
  hd_error (select_users e (db w)) = Some u ->
  user_email u = e /\
  (is_email e = true -> 6 <= String.length p ->
   bcrypt_compare p (user_password u) = true ->
   fst (authorize {| email := Some e; password := Some p |} w) = Normal (Some u)) /\
  (bcrypt_compare p (user_password u) = false ->
   fst (authorize {| email := Some e; password := Some p |} w) = Normal None).
Proof.
  intros R H. split; [now apply first_row_has_the_email with (d := db w)|]. split.
  - intros E L B.
    rewrite (authorize_well_formed e p w E L), (getUser_accepted e w R), H, B.
    reflexivity.
  - intros B.
    destruct (credentials_schema is_email {| email := Some e; password := Some p |})
      as [[e' p']|issues] eqn:S.
    + unfold credentials_schema, string_email, string_min in S.
      cbn [email password] in S.
      destruct (is_email e) eqn:E; [|discriminate].
      destruct (Nat.leb 6 (String.length p)) eqn:L; [|discriminate].
      apply Nat.leb_le in L.
      rewrite (authorize_well_formed e p w E L), (getUser_accepted e w R), H, B.
      reflexivity.
    + now rewrite (authorize_malformed _ issues w S).
Qed.

(** C7. When the email is not a well-formed address, or the password has
    fewer than 6 characters, [authorize] returns [null]; all it does is log
    ['Invalid Credentials']: no statement is sent, [getUser] is not called. *)
Theorem malformed_credentials_are_rejected_without_lookup
    (credentials : Credentials) (w : World) :
  (forall e, email credentials = Some e -> is_email e = false) \/
  (forall p, password credentials = Some p -> String.length p < 6) ->
  authorize credentials w
    = (Normal None, emit (EConsoleLog "Invalid Credentials") w) /\
  db (snd (authorize credentials w)) = db w /\
  events (snd (authorize credentials w))
    = (events w ++ [EConsoleLog "Invalid Credentials"])%list.
Proof.
  intros H.
  assert (F : exists issues,
             credentials_schema is_email credentials = Failure issues).
  { unfold credentials_schema, string_email, string_min.
    destruct credentials as [[e|] [p|]]; cbn [email password] in *;
      try (destruct (is_email e) eqn:E);
      try (destruct (Nat.leb 6 (String.length p)) eqn:L);
      try (eexists; reflexivity).
    exfalso. destruct H as [H|H].
    - specialize (H e eq_refl). congruence.
    - specialize (H p eq_refl). apply Nat.leb_le in L. lia. }
  destruct F as [issues F]. rewrite (authorize_malformed credentials issues w F).
  repeat split.
Qed.

End AuthFacts.

Lemma lookup_failure_is_thrown_and_unknown_email_is_rejected_witness :
  Sample.is_email "nobody@nextmail.com" = true /\
  6 <= String.length "123456" /\
  fst (Auth.authorize Sample.is_email Sample.bcrypt_compare
         {| Auth.email := Some "nobody@nextmail.com";
            Auth.password := Some "123456" |} Sample.offline)
    = Thrown (JsError "Failed to fetch user.") /\
  fst (Auth.authorize Sample.is_email Sample.bcrypt_compare
         {| Auth.email := Some "nobody@nextmail.com";
            Auth.password := Some "123456" |} Sample.online)
    = Normal None.
Proof.
  split; [reflexivity|]. split; [simpl; lia|]. split.
  - apply (lookup_failure_is_thrown_and_unknown_email_is_rejected
             Sample.is_email Sample.bcrypt_compare
             "nobody@nextmail.com" "123456" Sample.offline);
      [reflexivity | simpl; lia | reflexivity].
  - apply (lookup_failure_is_thrown_and_unknown_email_is_rejected
             Sample.is_email Sample.bcrypt_compare
             "nobody@nextmail.com" "123456" Sample.online);
      [reflexivity | simpl; lia | reflexivity | reflexivity].
Defined.

Lemma registered_user_is_accepted_with_a_well_formed_correct_password_witness :
  rejects Sample.online (SELECT_users "user@nextmail.com") = false /\
  hd_error (select_users "user@nextmail.com" (db Sample.online)) = Some Sample.user /\
  fst (Auth.authorize Sample.is_email Sample.bcrypt_compare
         {| Auth.email := Some "user@nextmail.com";
            Auth.password := Some "123456" |} Sample.online)
    = Normal (Some Sample.user) /\
  fst (Auth.authorize Sample.is_email Sample.bcrypt_compare
         {| Auth.email := Some "user@nextmail.com";
            Auth.password := Some "654321" |} Sample.online)
    = Normal None.
Proof.
  split; [reflexivity|]. split; [reflexivity|]. split.
  - apply (registered_user_is_accepted_with_a_well_formed_correct_password
             Sample.is_email Sample.bcrypt_compare
             "user@nextmail.com" "123456" Sample.user Sample.online);
      [reflexivity | reflexivity | reflexivity | simpl; lia | reflexivity].
  - apply (registered_user_is_accepted_with_a_well_formed_correct_password
             Sample.is_email Sample.bcrypt_compare
             "user@nextmail.com" "654321" Sample.user Sample.online);
      reflexivity.
Defined.

(** C6, as it is worded, fails for a user provisioned with the
    five-character password [12345]: the email is registered, the lookup
    succeeds and the password is the one that was hashed, but the schema
    turns the submission down before the lookup. *)
Lemma short_correct_password_is_rejected :
  ~ Auth.registered_with_correct_password_is_accepted
      Sample.is_email Sample.bcrypt_compare
      Sample.online "short@nextmail.com" "12345" Sample.short_user.
Proof.
  unfold Auth.registered_with_correct_password_is_accepted. intros H.
  specialize (H eq_refl eq_refl eq_refl). vm_compute in H. discriminate H.
Qed.

Lemma malformed_credentials_are_rejected_without_lookup_witness :
  String.length "12345" < 6 /\
  Auth.authorize Sample.is_email Sample.bcrypt_compare
    {| Auth.email := Some "short@nextmail.com"; Auth.password := Some "12345" |}
    Sample.online
  = (Normal None, emit (EConsoleLog "Invalid Credentials") Sample.online).
Proof.
  split; [simpl; lia|].
  apply (malformed_credentials_are_rejected_without_lookup
           Sample.is_email Sample.bcrypt_compare
           {| Auth.email := Some "short@nextmail.com";
              Auth.password := Some "12345" |} Sample.online).
  right. intros p E. inversion E. simpl. lia.
Defined.

(** ** The route matcher *)

Section MiddlewareFacts.

Import Str StrFacts Middleware.

(** The lookahead alternative for [.png] at the end of the path. *)
Local Abbreviation png_at_end := (Seq AnyStar (Seq (Lit ".png") EndOfInput)).

(** What [matcher] comes to on a path: a slash, then none of the lookahead
    alternatives, then characters up to the end with no line terminator
    among them. *)
Lemma full_match_matcher (path : string) :
  full_match matcher path =
    match path with
    | String c rest =>
        Ascii.eqb "/" c &&
        (negb (starts_with "api" rest
               || (starts_with "_next/static" rest
                   || (starts_with "_next/image" rest
                       || matches_then png_at_end rest (fun _ => true))))
         && any_star rest is_empty)
    | EmptyString => false
    end.
Proof.
  destruct path as [|c rest]; [reflexivity|].
  unfold full_match, matcher, starts_with.
  cbn [matches_then strip_prefix].
  destruct (Ascii.eqb "/" c); [|reflexivity].
  cbn [andb].
  destruct (strip_prefix "api" rest); [reflexivity|].
  destruct (strip_prefix "_next/static" rest); [reflexivity|].
  destruct (strip_prefix "_next/image" rest); reflexivity.
Qed.

Lemma any_star_step (c : ascii) (s : string) (k : string -> bool) :
  any_star (String c s) k
  = k (String c s) || (negb (is_line_terminator c) && any_star s k).
Proof. reflexivity. Qed.

(** On a string that ends in [.png], either the lookahead alternative for
    [.png] succeeds, or a line terminator keeps [.*] from reaching the end. *)
Lemma png_at_end_or_no_full_match (stem : string) :
  matches_then png_at_end (stem ++ ".png") (fun _ => true) = true \/
  any_star (stem ++ ".png") is_empty = false.
Proof.
  induction stem as [|c stem IH].
  - left. reflexivity.
  - change (String c stem ++ ".png") with (String c (stem ++ ".png")).
    cbn [matches_then] in *. rewrite !any_star_step.
    destruct (is_line_terminator c).
    + right. reflexivity.
    + destruct IH as [IH|IH]; rewrite IH.
      * left. apply orb_true_r.
      * right. reflexivity.
Qed.

Lemma prefix_not_matched (rest : string) :
  starts_with "api" rest = true \/
  starts_with "_next/static" rest = true \/
  starts_with "_next/image" rest = true ->
  full_match matcher ("/" ++ rest) = false.
Proof.
  intros H. rewrite full_match_matcher.
  change ("/" ++ rest) with (String "/" rest). cbn [Ascii.eqb Bool.eqb andb].
  destruct H as [H|[H|H]]; rewrite H; rewrite ?orb_true_r; reflexivity.
Qed.

Lemma png_not_matched (stem : string) :
  full_match matcher (stem ++ ".png") = false.
Proof.
  rewrite full_match_matcher.
  destruct stem as [|c stem]; [reflexivity|].
  change (String c stem ++ ".png") with (String c (stem ++ ".png")).
  cbv beta iota.
  destruct (Ascii.eqb "/" c); [|reflexivity].
  destruct (png_at_end_or_no_full_match stem) as [H|H]; rewrite H.
  - rewrite !orb_true_r. reflexivity.
  - rewrite andb_false_r. reflexivity.
Qed.

Lemma excluded_not_matched (path : string) :
  excluded path -> full_match matcher path = false.
Proof.
  intros (rest & -> & [H|[H|[H|(stem & ->)]]]).
  - apply prefix_not_matched. now left.
  - apply prefix_not_matched. right. now left.
  - apply prefix_not_matched. right. now right.
  - change ("/" ++ stem ++ ".png") with (String "/" stem ++ ".png").
    apply png_not_matched.
Qed.

Variable Response : Type.
Variable auth : Request -> M Response.

(** C8. For a request whose path is left out by the matcher (it begins with
    [/api], [/_next/static] or [/_next/image], or ends in [.png]), the
    middleware is not invoked: whatever the guard [auth] is and whatever
    session token the request carries, the request goes on untouched and the
    world is as before, so the session has not been resolved. *)
Theorem excluded_path_bypasses_the_guard (request : Request) (w : World) :
  excluded (pathname request) ->
  middleware Response auth request w = (Normal None, w).
Proof.
  intros H. unfold middleware. now rewrite (excluded_not_matched _ H).
Qed.

End MiddlewareFacts.

Lemma excluded_path_bypasses_the_guard_witness :
  Middleware.excluded "/customers/amy-burns.png" /\
  Middleware.middleware bool
    (fun request =>
       tell (EConsoleLog "session") ;;
       ret (match Middleware.session_token request with
            | Some _ => true
            | None => false
            end))
    {| Middleware.pathname := "/customers/amy-burns.png";
       Middleware.session_token := None |}
    Sample.online
  = (Normal None, Sample.online).
Proof.
  assert (E : Middleware.excluded "/customers/amy-burns.png").
  { exists "customers/amy-burns.png". split; [reflexivity|].
    right. right. right. exists "customers/amy-burns". reflexivity. }
  split; [exact E|].
  apply (excluded_path_bypasses_the_guard bool _
           {| Middleware.pathname := "/customers/amy-burns.png";
              Middleware.session_token := None |} Sample.online E).
Defined.

(** C10. The matcher compares its entries with the characters that follow
    the first slash, not with path segments: every path that goes on with
    [api] after the slash is left out, [/apiary] among them, and so is every
    path that goes on with [_next/static] or [_next/image]; every path
    ending in [.png] is left out, in whatever directory. An [api] segment
    further down the path does not leave it out. *)
Theorem matcher_tests_raw_prefixes :
  (forall rest, Middleware.full_match Middleware.matcher ("/api" ++ rest) = false) /\
  (forall rest,
     Middleware.full_match Middleware.matcher ("/_next/static" ++ rest) = false) /\
  (forall rest,
     Middleware.full_match Middleware.matcher ("/_next/image" ++ rest) = false) /\
  (forall stem, Middleware.full_match Middleware.matcher (stem ++ ".png") = false) /\
  Middleware.full_match Middleware.matcher "/apiary" = false /\
  Middleware.full_match Middleware.matcher "/dashboard/api" = true.
Proof.
  split; [|split; [|split; [|split; [|split]]]].
  - intros rest. apply (prefix_not_matched ("api" ++ rest)).
    left. apply StrFacts.starts_with_app.
  - intros rest. apply (prefix_not_matched ("_next/static" ++ rest)).
    right. left. apply StrFacts.starts_with_app.
  - intros rest. apply (prefix_not_matched ("_next/image" ++ rest)).
    right. right. apply StrFacts.starts_with_app.
  - apply png_not_matched.
  - reflexivity.
  - reflexivity.
Qed.

(** ** More on the server actions *)

Section ActionsMore.

Import FormData Zod Actions.

Lemma string_eqb_true (a b : string) : String.eqb a b = true -> a = b.
Proof. apply String.eqb_eq. Qed.

(** X1. Validation succeeds exactly when the customer is a string, the
    amount is coerced to a number that is not NaN and is above 0, and the
    status is one of the two words; the data are then these values. *)
Theorem validation_accepts_exactly_the_well_formed_fields
    (raw : RawFields) (data : Fields) :
  safeParse CreateInvoice raw = Success data <->
  raw_customerId raw = Some (Text (customerId data)) /\
  coerce (raw_amount raw) = amount data /\
  JsNumber.isNaN (amount data) = false /\
  JsNumber.leb (amount data) (JsNumber.of_Z 0) = false /\
  (raw_status raw = Some (Text "pending") /\ status data = pending \/
   raw_status raw = Some (Text "paid") /\ status data = paid).
Proof.
  unfold safeParse, CreateInvoice, FormSchema_omit_id_date,
    FormSchema_customerId, string_, FormSchema_amount, coerce_number_gt,
    FormSchema_status, enum_status.
  destruct raw as [c a s]; destruct data as [dc da ds].
  cbn [raw_customerId raw_amount raw_status customerId amount status].
  split.
  - destruct c as [[sc|fc]|];
      destruct (JsNumber.isNaN (coerce a)) eqn:N;
      destruct (JsNumber.leb (coerce a) (JsNumber.of_Z 0)) eqn:L;
      destruct s as [[ss|fs]|];
      try destruct (String.eqb ss "pending") eqn:E1;
      try destruct (String.eqb ss "paid") eqn:E2;
      intros H; try discriminate H; inversion H; subst;
      repeat split; try assumption;
      first [ left; apply string_eqb_true in E1; now subst
            | right; apply string_eqb_true in E2; now subst ].
  - intros (C & A & N & L & S). subst c. rewrite A, N, L.
    destruct S as [[S D]|[S D]]; subst s ds; reflexivity.
Qed.

(** Every message list the three checks produce holds a message. *)
Lemma field_errors_of (f : string) {A} (p : Parsed A) :
  (forall messages, p = Invalid messages -> messages <> []) ->
  fieldErrors (issues_at f p) f =
    match p with Valid _ => None | Invalid messages => Some messages end.
Proof.
  intros H. unfold fieldErrors. rewrite filter_issues_same.
  destruct p as [a|messages]; [reflexivity|].
  specialize (H messages eq_refl). simpl. rewrite map_map. simpl. rewrite map_id.
  destruct messages; [contradiction|reflexivity].
Qed.

Lemma customerId_messages v messages :
  FormSchema_customerId v = Invalid messages -> messages <> [].
Proof.
  unfold FormSchema_customerId, string_.
  destruct v as [[s|f]|]; intros H; inversion H; discriminate.
Qed.

Lemma amount_messages v messages :
  FormSchema_amount v = Invalid messages -> messages <> [].
Proof.
  unfold FormSchema_amount, coerce_number_gt.
  destruct (JsNumber.isNaN (coerce v));
    [|destruct (JsNumber.leb (coerce v) (JsNumber.of_Z 0))];
    intros H; inversion H; discriminate.
Qed.

Lemma status_messages v messages :
  FormSchema_status v = Invalid messages -> messages <> [].
Proof.
  unfold FormSchema_status, enum_status.
  destruct v as [[s|f]|];
    try (destruct (String.eqb s "pending"); [|destruct (String.eqb s "paid")]);
    intros H; inversion H; discriminate.
Qed.

Lemma fieldErrors_app (a b : list Issue) (f : string) :
  fieldErrors (a ++ b) f =
    match fieldErrors a f, fieldErrors b f with
    | Some x, Some y => Some (x ++ y)%list
    | Some x, None => Some x
    | None, y => y
    end.
Proof.
  unfold fieldErrors. rewrite filter_app, map_app.
  destruct (map Zod.message (filter _ a)) as [|x xs];
    destruct (map Zod.message (filter _ b)) as [|y ys];
    simpl; rewrite ?app_nil_r; reflexivity.
Qed.

Lemma fieldErrors_other {A} (f g : string) (p : Parsed A) :
  String.eqb f g = false -> fieldErrors (issues_at f p) g = None.
Proof.
  intros H. unfold fieldErrors. now rewrite (filter_issues_other f g p H).
Qed.

(** The issues of a failed validation, as the schema lists them. *)
Lemma failure_issues (raw : RawFields) (error : list Issue) :
  safeParse CreateInvoice raw = Failure error ->
  error =
    (issues_at "customerId" (FormSchema_customerId (raw_customerId raw))
     ++ issues_at "amount" (FormSchema_amount (raw_amount raw))
     ++ issues_at "status" (FormSchema_status (raw_status raw)))%list.
Proof.
  unfold safeParse, CreateInvoice, FormSchema_omit_id_date.
  destruct (FormSchema_customerId (raw_customerId raw));
    destruct (FormSchema_amount (raw_amount raw));
    destruct (FormSchema_status (raw_status raw));
    intros H; inversion H; reflexivity.
Qed.

(** X2. When validation fails, the errors are collected field by field and
    not one at a time: under each field are exactly the messages of that
    field's own check, none when the field is valid, whatever the other
    fields are; and at least one field has messages. *)
Theorem every_invalid_field_is_reported (raw : RawFields) (error : list Issue) :
  safeParse CreateInvoice raw = Failure error ->
  errors_customerId (flatten_fieldErrors error) =
    match FormSchema_customerId (raw_customerId raw) with
    | Valid _ => None
    | Invalid messages => Some messages
    end /\
  errors_amount (flatten_fieldErrors error) =
    match FormSchema_amount (raw_amount raw) with
    | Valid _ => None
    | Invalid messages => Some messages
    end /\
  errors_status (flatten_fieldErrors error) =
    match FormSchema_status (raw_status raw) with
    | Valid _ => None
    | Invalid messages => Some messages
    end /\
  (errors_customerId (flatten_fieldErrors error) <> None \/
   errors_amount (flatten_fieldErrors error) <> None \/
   errors_status (flatten_fieldErrors error) <> None).
Proof.
  intros F. pose proof (failure_issues raw error F) as E.
  assert (C : errors_customerId (flatten_fieldErrors error) =
              match FormSchema_customerId (raw_customerId raw) with
              | Valid _ => None
              | Invalid messages => Some messages
              end).
  { subst error. unfold flatten_fieldErrors, errors_customerId.
    rewrite !fieldErrors_app.
    rewrite (fieldErrors_other "amount" "customerId") by reflexivity.
    rewrite (fieldErrors_other "status" "customerId") by reflexivity.
    rewrite (field_errors_of "customerId")
      by (intros ms; apply customerId_messages).
    now destruct (FormSchema_customerId (raw_customerId raw)). }
  assert (A : errors_amount (flatten_fieldErrors error) =
              match FormSchema_amount (raw_amount raw) with
              | Valid _ => None
              | Invalid messages => Some messages
              end).
  { subst error. unfold flatten_fieldErrors, errors_amount.
    rewrite !fieldErrors_app.
    rewrite (fieldErrors_other "customerId" "amount") by reflexivity.
    rewrite (fieldErrors_other "status" "amount") by reflexivity.
    rewrite (field_errors_of "amount") by (intros ms; apply amount_messages).
    now destruct (FormSchema_amount (raw_amount raw)). }
  assert (S : errors_status (flatten_fieldErrors error) =
              match FormSchema_status (raw_status raw) with
              | Valid _ => None
              | Invalid messages => Some messages
              end).
  { subst error. unfold flatten_fieldErrors, errors_status.
    rewrite !fieldErrors_app.
    rewrite (fieldErrors_other "customerId" "status") by reflexivity.
    rewrite (fieldErrors_other "amount" "status") by reflexivity.
    rewrite (field_errors_of "status") by (intros ms; apply status_messages).
    reflexivity. }
  split; [exact C|]. split; [exact A|]. split; [exact S|].
  rewrite C, A, S. clear C A S E.
  unfold safeParse, CreateInvoice, FormSchema_omit_id_date in F.
  destruct (FormSchema_customerId (raw_customerId raw));
    [|left; discriminate].
  destruct (FormSchema_amount (raw_amount raw));
    [|right; left; discriminate].
  destruct (FormSchema_status (raw_status raw));
    [discriminate F|right; right; discriminate].
Qed.

(** X3. A form that has none of the three fields is answered with the three
    messages the schema was given, one under each field; the world is as it
    was. The missing amount is [null], which is coerced to 0. *)
Theorem missing_fields_get_their_messages
    (prevState : State) (formData : FormData.t) (w : World) :
  get formData "customerId" = None ->
  get formData "amount" = None ->
  get formData "status" = None ->
  createInvoice prevState formData w =
    (Normal
       {| errors :=
            Some {| errors_customerId := Some ["Please select a customer."];
                    errors_amount := Some ["Please enter an amount greater than $0."];
                    errors_status := Some ["Please select an invoice status"] |};
          message := Some "Missing Fields. Failed to Create Invoice." |}, w).
Proof.
  intros C A S. unfold createInvoice, safeParse, CreateInvoice, raw_of,
    FormSchema_omit_id_date.
  cbn [raw_customerId raw_amount raw_status]. rewrite C, A, S. reflexivity.
Qed.

Lemma missing_fields_get_their_messages_witness :
  createInvoice Sample.no_state [("note", Text "hello")] Sample.online =
    (Normal
       {| errors :=
            Some {| errors_customerId := Some ["Please select a customer."];
                    errors_amount := Some ["Please enter an amount greater than $0."];
                    errors_status := Some ["Please select an invoice status"] |};
          message := Some "Missing Fields. Failed to Create Invoice." |},
     Sample.online).
Proof.
  apply (missing_fields_get_their_messages
           Sample.no_state [("note", Text "hello")] Sample.online);
    reflexivity.
Defined.

(** X4. A status that is a string other than the two words is reported under
    [status] with a message that quotes it, and nothing is sent to the
    store. *)
Theorem unknown_status_is_reported
    (id : string) (prevState : State) (formData : FormData.t)
    (s : string) (w : World) :
  get formData "status" = Some (Text s) ->
  s <> "pending" -> s <> "paid" ->
  exists error,
    errors_status (flatten_fieldErrors error) =
      Some ["Invalid enum value. Expected 'pending' | 'paid', received '"
              ++ s ++ "'"] /\
    createInvoice prevState formData w =
      (Normal {| errors := Some (flatten_fieldErrors error);
                 message := Some "Missing Fields. Failed to Create Invoice." |}, w) /\
    updateInvoice id prevState formData w =
      (Normal {| errors := Some (flatten_fieldErrors error);
                 message := Some "Missing Fields. Failed to Update Invoice." |}, w).
Proof.
  intros G P Q.
  assert (V : FormSchema_status (raw_status (raw_of formData)) =
              Invalid ["Invalid enum value. Expected 'pending' | 'paid', received '"
                         ++ s ++ "'"]).
  { unfold FormSchema_status, enum_status, raw_of. cbn [raw_status]. rewrite G.
    apply String.eqb_neq in P, Q. now rewrite P, Q. }
  destruct (safeParse CreateInvoice (raw_of formData)) as [data|error] eqn:F.
  - exfalso. unfold safeParse, CreateInvoice, FormSchema_omit_id_date in F.
    rewrite V in F.
    destruct (FormSchema_customerId (raw_customerId (raw_of formData)));
      destruct (FormSchema_amount (raw_amount (raw_of formData)));
      discriminate F.
  - exists error.
    destruct (every_invalid_field_is_reported _ _ F) as (_ & _ & S & _).
    rewrite V in S. split; [exact S|]. split.
    + now apply createInvoice_invalid.
    + now apply updateInvoice_invalid.
Qed.

Lemma unknown_status_is_reported_witness :
  exists error,
    errors_status (flatten_fieldErrors error) =
      Some ["Invalid enum value. Expected 'pending' | 'paid', received 'overdue'"] /\
    createInvoice Sample.no_state
      [("customerId", Text "C"); ("amount", Text "10"); ("status", Text "overdue")]
      Sample.online =
      (Normal {| errors := Some (flatten_fieldErrors error);
                 message := Some "Missing Fields. Failed to Create Invoice." |},
       Sample.online) /\
    updateInvoice "1" Sample.no_state
      [("customerId", Text "C"); ("amount", Text "10"); ("status", Text "overdue")]
      Sample.online =
      (Normal {| errors := Some (flatten_fieldErrors error);
                 message := Some "Missing Fields. Failed to Update Invoice." |},
       Sample.online).
Proof.
  apply (unknown_status_is_reported "1" Sample.no_state
           [("customerId", Text "C"); ("amount", Text "10"); ("status", Text "overdue")]
           "overdue" Sample.online);
    [reflexivity | discriminate | discriminate].
Defined.

(** X5. [createInvoice] and [updateInvoice] are all or nothing. When they
    return, the result carries a message and the store is as it was; the only
    thing they throw is the redirect to the invoices listing, and then the
    input was valid and the store has taken the statement. *)
Theorem actions_are_all_or_nothing
    (id : string) (prevState : State) (formData : FormData.t) (w : World) :
  match fst (createInvoice prevState formData w) with
  | Normal result =>
      message result <> None /\
      db (snd (createInvoice prevState formData w)) = db w
  | Thrown e =>
      e = NextRedirect "/dashboard/invoices" /\
      exists data,
        safeParse CreateInvoice (raw_of formData) = Success data /\
        rejects w (insert_of data w) = false /\
        db (snd (createInvoice prevState formData w))
          = apply_statement (insert_of data w) (db w)
  end /\
  match fst (updateInvoice id prevState formData w) with
  | Normal result =>
      message result <> None /\
      db (snd (updateInvoice id prevState formData w)) = db w
  | Thrown e =>
      e = NextRedirect "/dashboard/invoices" /\
      exists data,
        safeParse UpdateInvoice (raw_of formData) = Success data /\
        rejects w (update_of id data) = false /\
        db (snd (updateInvoice id prevState formData w))
          = apply_statement (update_of id data) (db w)
  end.
Proof.
  destruct (safeParse CreateInvoice (raw_of formData)) as [data|error] eqn:F.
  - rewrite (createInvoice_validated prevState formData data w F).
    rewrite (updateInvoice_validated id prevState formData data w F).
    split.
    + destruct (rejects w (insert_of data w)) eqn:R; simpl.
      * split; [discriminate|reflexivity].
      * split; [reflexivity|]. exists data. now repeat split.
    + destruct (rejects w (update_of id data)) eqn:R; simpl.
      * split; [discriminate|reflexivity].
      * split; [reflexivity|]. exists data. now repeat split.
  - rewrite (createInvoice_invalid prevState formData error w F).
    rewrite (updateInvoice_invalid id prevState formData error w F).
    simpl. repeat split; discriminate.
Qed.

(** X6. Whatever the form holds and whatever the store answers,
    [createInvoice] leaves the rows that are there as they are: the invoices
    afterwards are the invoices before, followed by at most one row, and that
    row is there exactly when the call ends in the redirect. *)
Theorem createInvoice_only_appends
    (prevState : State) (formData : FormData.t) (w : World) :
  exists rows,
    invoices (db (snd (createInvoice prevState formData w)))
      = (invoices (db w) ++ rows)%list /\
    users (db (snd (createInvoice prevState formData w))) = users (db w) /\
    List.length rows =
      match fst (createInvoice prevState formData w) with
      | Thrown _ => 1
      | Normal _ => 0
      end.
Proof.
  destruct (safeParse CreateInvoice (raw_of formData)) as [data|error] eqn:F.
  - rewrite (createInvoice_validated prevState formData data w F).
    destruct (rejects w (insert_of data w)); simpl.
    + exists []. now rewrite app_nil_r.
    + eexists [_]. repeat split.
  - rewrite (createInvoice_invalid prevState formData error w F). simpl.
    exists []. now rewrite app_nil_r.
Qed.

Lemma map_update_row_id customer_id amount status id rows :
  map row_id (map (update_row customer_id amount status id) rows) = map row_id rows.
Proof.
  rewrite map_map. apply map_ext. intros r. unfold update_row.
  destruct (String.eqb (row_id r) id); reflexivity.
Qed.

Lemma map_update_row_date customer_id amount status id rows :
  map row_date (map (update_row customer_id amount status id) rows)
  = map row_date rows.
Proof.
  rewrite map_map. apply map_ext. intros r. unfold update_row.
  destruct (String.eqb (row_id r) id); reflexivity.
Qed.

(** X7. Whatever the form holds and whatever the store answers,
    [updateInvoice] keeps the ids and the dates of the invoices, row by row
    and in order, and so their number; a row whose id is not the one given
    stays as it is; the users are untouched. *)
Theorem updateInvoice_keeps_ids_and_dates
    (id : string) (prevState : State) (formData : FormData.t) (w : World) :
  map row_id (invoices (db (snd (updateInvoice id prevState formData w))))
    = map row_id (invoices (db w)) /\
  map row_date (invoices (db (snd (updateInvoice id prevState formData w))))
    = map row_date (invoices (db w)) /\
  (forall r, In r (invoices (db w)) -> row_id r <> id ->
             In r (invoices (db (snd (updateInvoice id prevState formData w))))) /\
  users (db (snd (updateInvoice id prevState formData w))) = users (db w).
Proof.
  destruct (safeParse UpdateInvoice (raw_of formData)) as [data|error] eqn:F.
  - rewrite (updateInvoice_validated id prevState formData data w F).
    destruct (rejects w (update_of id data)); simpl.
    + now repeat split.
    + split; [apply map_update_row_id|]. split; [apply map_update_row_date|].
      split; [|reflexivity].
      intros r I N. apply in_map_iff. exists r. split; [|exact I].
      unfold update_row. apply String.eqb_neq in N. now rewrite N.
  - rewrite (updateInvoice_invalid id prevState formData error w F). simpl.
    now repeat split.
Qed.

(** X8. When the input is valid and the store accepts the statement, every
    invoice with the given id carries the customer, the amount in cents and
    the status of the form afterwards; when no invoice has the id, the
    invoices are unchanged, and the call still ends in the redirect. *)
Theorem updateInvoice_rewrites_the_rows_with_the_id
    (id : string) (prevState : State) (formData : FormData.t)
    (data : Fields) (w : World) :
  safeParse UpdateInvoice (raw_of formData) = Success data ->
  rejects w (update_of id data) = false ->
  (forall r, In r (invoices (db (snd (updateInvoice id prevState formData w)))) ->
             row_id r = id ->
             row_customer_id r = customerId data /\
             row_amount r = JsNumber.mul (amount data) (JsNumber.of_Z 100) /\
             row_status r = status data) /\
  ((forall r, In r (invoices (db w)) -> row_id r <> id) ->
   invoices (db (snd (updateInvoice id prevState formData w))) = invoices (db w) /\
   fst (updateInvoice id prevState formData w)
     = Thrown (NextRedirect "/dashboard/invoices")).
Proof.
  intros F R. rewrite (updateInvoice_validated id prevState formData data w F), R.
  simpl. split.
  - intros r I E. apply in_map_iff in I. destruct I as (r0 & U & I0).
    unfold update_row in U. destruct (String.eqb (row_id r0) id) eqn:B.
    + subst r. now repeat split.
    + subst r. apply String.eqb_neq in B. contradiction.
  - intros N. split; [|reflexivity].
    rewrite <- (map_id (invoices (db w))) at 2. apply map_ext_in.
    intros r I. unfold update_row. specialize (N r I).
    apply String.eqb_neq in N. now rewrite N.
Qed.

Lemma updateInvoice_rewrites_the_rows_with_the_id_witness :
  safeParse UpdateInvoice (raw_of (Sample.form "125.50")) = Success Sample.fields /\
  rejects Examples.billing (update_of "2" Sample.fields) = false /\
  invoices (db (snd (updateInvoice "2" Sample.no_state (Sample.form "125.50")
                       Examples.billing))) =
    [Examples.first_invoice;
     {| row_id := "2"; row_customer_id := "C"; row_amount := JsNumber.of_Z 12550;
        row_status := pending; row_date := "2026-10-31" |}] /\
  (forall r,
     In r (invoices (db (snd (updateInvoice "2" Sample.no_state
                                (Sample.form "125.50") Examples.billing)))) ->
     row_id r = "2" ->
     row_customer_id r = "C" /\
     row_amount r = JsNumber.mul (JsNumber.StringToNumber "125.50") (JsNumber.of_Z 100) /\
     row_status r = pending).
Proof.
  assert (V : safeParse UpdateInvoice (raw_of (Sample.form "125.50"))
              = Success Sample.fields) by (vm_compute; reflexivity).
  split; [exact V|]. split; [reflexivity|]. split; [vm_compute; reflexivity|].
  apply (updateInvoice_rewrites_the_rows_with_the_id
           "2" Sample.no_state (Sample.form "125.50") Sample.fields
           Examples.billing V eq_refl).
Defined.

End ActionsMore.

(** ** The earlier revisions of the server actions *)

Section EarlierFacts.

Import FormData Zod Actions.

Variable ZodError_message : list Issue -> string.

Local Abbreviation createInvoice_caught :=
  (ActionsEarlier.createInvoice_caught ZodError_message).
Local Abbreviation updateInvoice_caught :=
  (ActionsEarlier.updateInvoice_caught ZodError_message).
Local Abbreviation createInvoice_plain :=
  (ActionsEarlier.createInvoice_plain ZodError_message).
Local Abbreviation updateInvoice_plain :=
  (ActionsEarlier.updateInvoice_plain ZodError_message).

Lemma enum_status_valid (m1 m2 : string) v st :
  enum_status m1 v = Valid st -> enum_status m2 v = Valid st.
Proof.
  unfold enum_status. destruct v as [[s|f]|]; try discriminate.
  destruct (String.eqb s "pending"); [trivial|].
  destruct (String.eqb s "paid"); [trivial|discriminate].
Qed.

(** What the present schema accepts, the earlier one accepts, with the same
    data. *)
Lemma earlier_schema_accepts (raw : RawFields) (data : Fields) :
  safeParse CreateInvoice raw = Success data ->
  ActionsEarlier.CreateInvoice raw = Success data.
Proof.
  unfold safeParse, CreateInvoice, FormSchema_omit_id_date,
    ActionsEarlier.CreateInvoice, ActionsEarlier.FormSchema_omit_id_date,
    FormSchema_customerId, ActionsEarlier.FormSchema_customerId, string_,
    FormSchema_amount, ActionsEarlier.FormSchema_amount,
    ActionsEarlier.coerce_number, coerce_number_gt,
    FormSchema_status, ActionsEarlier.FormSchema_status.
  destruct (raw_customerId raw) as [[c|f]|];
    destruct (JsNumber.isNaN (coerce (raw_amount raw)));
    try destruct (JsNumber.leb (coerce (raw_amount raw)) (JsNumber.of_Z 0));
    destruct (enum_status "Please select an invoice status" (raw_status raw))
      as [st|ms] eqn:S;
    intros H; try discriminate H.
  rewrite (enum_status_valid _ ("Expected 'pending' | 'paid', received "
                                  ++ received (raw_status raw)) _ st S).
  exact H.
Qed.

(** X9. On every input the present schema accepts, the revision that used
    [parse] does what the present [createInvoice] and [updateInvoice] do: the
    same outcome and the same world. *)
Theorem revision_with_parse_agrees_on_valid_input
    (id : string) (prevState : State) (formData : FormData.t)
    (data : Fields) (w : World) :
  safeParse CreateInvoice (raw_of formData) = Success data ->
  createInvoice_caught formData w = createInvoice prevState formData w /\
  updateInvoice_caught id formData w = updateInvoice id prevState formData w.
Proof.
  intros F. pose proof (earlier_schema_accepts _ _ F) as E.
  rewrite (createInvoice_validated prevState formData data w F).
  rewrite (updateInvoice_validated id prevState formData data w F).
  unfold ActionsEarlier.createInvoice_caught, ActionsEarlier.updateInvoice_caught,
    ActionsEarlier.parse, ActionsEarlier.UpdateInvoice,
    ActionsEarlier.CreateInvoice in *.
  rewrite E.
  unfold bind, ret, try_catch, toISOString_now, sql.
  fold (insert_of data w). fold (update_of id data).
  split.
  - destruct (rejects w (insert_of data w)); reflexivity.
  - destruct (rejects w (update_of id data)); reflexivity.
Qed.

(** X10. The [try]/[catch] of the second revision changes one thing with
    respect to the first: a statement the store rejects is answered with the
    database-error message instead of the thrown error of the store. The
    world is the same in all cases, and whatever the second revision throws,
    a [ZodError] or the redirect, the first throws as well. *)
Theorem try_catch_only_turns_the_store_error_into_a_message
    (id : string) (formData : FormData.t) (w : World) :
  snd (createInvoice_plain formData w) = snd (createInvoice_caught formData w) /\
  match fst (createInvoice_caught formData w) with
  | Thrown e => fst (createInvoice_plain formData w) = Thrown e
  | Normal result =>
      fst (createInvoice_plain formData w) = Thrown SqlError /\
      result = database_error "Database Error: Failed to create invoice."
  end /\
  snd (updateInvoice_plain id formData w) = snd (updateInvoice_caught id formData w) /\
  match fst (updateInvoice_caught id formData w) with
  | Thrown e => fst (updateInvoice_plain id formData w) = Thrown e
  | Normal result =>
      fst (updateInvoice_plain id formData w) = Thrown SqlError /\
      result = database_error "Database Error: Failed to Update Invoice."
  end.
Proof.
  unfold ActionsEarlier.createInvoice_caught, ActionsEarlier.updateInvoice_caught,
    ActionsEarlier.createInvoice_plain, ActionsEarlier.updateInvoice_plain,
    ActionsEarlier.parse, ActionsEarlier.UpdateInvoice,
    ActionsEarlier.CreateInvoice.
  destruct (ActionsEarlier.FormSchema_omit_id_date (raw_of formData))
    as [data|error].
  - unfold bind, ret, try_catch, toISOString_now, sql.
    fold (insert_of data w). fold (update_of id data).
    destruct (rejects w (insert_of data w));
      destruct (rejects w (update_of id data)); now repeat split.
  - now repeat split.
Qed.

(** X11. The earlier schema had no lower bound: an amount that is coerced to
    zero or to a negative number, an empty or a missing amount among them,
    was sent to the store, multiplied by 100, by the revision with [parse],
    while the present [createInvoice] turns it down and sends nothing. *)
Theorem non_positive_amounts_were_stored_before_the_bound
    (prevState : State) (formData : FormData.t) (c : string)
    (st : InvoiceStatus) (w : World) :
  get formData "customerId" = Some (Text c) ->
  FormSchema_status (get formData "status") = Valid st ->
  JsNumber.isNaN (coerce (get formData "amount")) = false ->
  JsNumber.leb (coerce (get formData "amount")) (JsNumber.of_Z 0) = true ->
  let cents := JsNumber.mul (coerce (get formData "amount")) (JsNumber.of_Z 100) in
  let statement := INSERT_invoices c cents st (Str.before "T" (now w)) in
  events (snd (createInvoice_caught formData w))
    = (events w ++ ESql statement ::
         (if rejects w statement then []
          else [ERevalidatePath "/dashboard/invoices";
                ERedirect "/dashboard/invoices"]))%list /\
  snd (createInvoice prevState formData w) = w /\
  exists result,
    fst (createInvoice prevState formData w) = Normal result /\
    option_map errors_amount (errors result) = Some (Some [amount_too_small]).
Proof.
  intros C S N L cents statement.
  assert (E : ActionsEarlier.CreateInvoice (raw_of formData) =
              Success {| customerId := c;
                         amount := coerce (get formData "amount");
                         status := st |}).
  { unfold ActionsEarlier.CreateInvoice, ActionsEarlier.FormSchema_omit_id_date,
      ActionsEarlier.FormSchema_customerId, string_,
      ActionsEarlier.FormSchema_amount, ActionsEarlier.coerce_number,
      ActionsEarlier.FormSchema_status, raw_of.
    cbn [raw_customerId raw_amount raw_status]. rewrite C, N.
    unfold FormSchema_status in S.
    now rewrite (enum_status_valid _ _ _ st S). }
  split; [|].
  - unfold ActionsEarlier.createInvoice_caught, ActionsEarlier.parse. rewrite E.
    unfold bind, ret, try_catch, toISOString_now, sql.
    cbn [customerId amount status]. fold cents. fold statement.
    destruct (rejects w statement); simpl; [reflexivity|].
    now rewrite <- !app_assoc.
  - destruct (schema_fails_on_amount (raw_of formData) amount_too_small)
      as (error & F & A).
    + unfold FormSchema_amount, coerce_number_gt, raw_of. cbn [raw_amount].
      now rewrite N, L.
    + rewrite (createInvoice_invalid prevState formData error w F).
      split; [reflexivity|]. eexists. split; [reflexivity|].
      cbn [errors option_map]. now rewrite A.
Qed.

End EarlierFacts.

Lemma revision_with_parse_agrees_on_valid_input_witness :
  Zod.safeParse Actions.CreateInvoice (Actions.raw_of (Sample.form "125.50")) = Zod.Success Sample.fields /\
  ActionsEarlier.createInvoice_caught Examples.zod_message (Sample.form "125.50")
    Sample.offline
  = Actions.createInvoice Sample.no_state (Sample.form "125.50") Sample.offline.
Proof.
  assert (V : Zod.safeParse Actions.CreateInvoice (Actions.raw_of (Sample.form "125.50"))
              = Zod.Success Sample.fields) by (vm_compute; reflexivity).
  split; [exact V|].
  apply (revision_with_parse_agrees_on_valid_input
           Examples.zod_message "1" Sample.no_state (Sample.form "125.50")
           Sample.fields Sample.offline V).
Defined.

Lemma non_positive_amounts_were_stored_before_the_bound_witness :
  events (snd (ActionsEarlier.createInvoice_caught Examples.zod_message
                 (Sample.form "") Sample.online))
    = [ESql (INSERT_invoices "C"
               (JsNumber.mul JsNumber.pos_zero (JsNumber.of_Z 100))
               pending "2026-11-02");
       ERevalidatePath "/dashboard/invoices";
       ERedirect "/dashboard/invoices"] /\
  snd (Actions.createInvoice Sample.no_state (Sample.form "") Sample.online) = Sample.online.
Proof.
  pose proof (non_positive_amounts_were_stored_before_the_bound
                Examples.zod_message Sample.no_state (Sample.form "") "C" pending
                Sample.online eq_refl eq_refl eq_refl eq_refl) as H.
  split; [exact (proj1 H) | exact (proj1 (proj2 H))].
Defined.

Lemma every_invalid_field_is_reported_witness :
  Zod.safeParse Actions.CreateInvoice (Actions.raw_of (Sample.form "-3")) =
    Zod.Failure [{| Zod.path := "amount"; Zod.message := Actions.amount_too_small |}] /\
  Actions.errors_customerId
    (Actions.flatten_fieldErrors
       [{| Zod.path := "amount"; Zod.message := Actions.amount_too_small |}]) = None /\
  Actions.errors_amount
    (Actions.flatten_fieldErrors
       [{| Zod.path := "amount"; Zod.message := Actions.amount_too_small |}])
    = Some [Actions.amount_too_small].
Proof.
  assert (F : Zod.safeParse Actions.CreateInvoice (Actions.raw_of (Sample.form "-3")) =
              Zod.Failure [{| Zod.path := "amount";
                              Zod.message := Actions.amount_too_small |}])
    by (vm_compute; reflexivity).
  split; [exact F|].
  pose proof (every_invalid_field_is_reported _ _ F) as (C & A & _).
  split; [exact C | exact A].
Defined.

(** ** The first [deleteInvoice] *)

Section DeleteFacts.

Import ActionsEarlier.

Lemma deleteInvoice_plain_accepted id w :
  rejects w (DELETE_invoices id) = false ->
  deleteInvoice_plain id w =
    (Normal tt,
     emit (ERevalidatePath "/dashboard/invoices")
       (with_db (apply_statement (DELETE_invoices id) (db w))
          (emit (ESql (DELETE_invoices id)) w))).
Proof. intros R. unfold deleteInvoice_plain, bind, sql. now rewrite R. Qed.

Lemma deleteInvoice_plain_rejected id w :
  rejects w (DELETE_invoices id) = true ->
  deleteInvoice_plain id w = (Thrown SqlError, emit (ESql (DELETE_invoices id)) w).
Proof. intros R. unfold deleteInvoice_plain, bind, sql. now rewrite R. Qed.

(** X12. The first [deleteInvoice], when the store accepts the statement:
    the invoices afterwards are those that were there under another id, no
    more and no fewer; the listing is invalidated after the statement, there
    is no redirect, and the call returns. When the store rejects the
    statement, its error is thrown to the caller, the invoices stay and
    nothing is invalidated. *)
Theorem first_deleteInvoice_removes_exactly_the_id (id : string) (w : World) :
  (rejects w (DELETE_invoices id) = false ->
   fst (deleteInvoice_plain id w) = Normal tt /\
   (forall r, In r (invoices (db (snd (deleteInvoice_plain id w)))) <->
              In r (invoices (db w)) /\ row_id r <> id) /\
   users (db (snd (deleteInvoice_plain id w))) = users (db w) /\
   events (snd (deleteInvoice_plain id w)) =
     (events w ++ [ESql (DELETE_invoices id);
                   ERevalidatePath "/dashboard/invoices"])%list) /\
  (rejects w (DELETE_invoices id) = true ->
   fst (deleteInvoice_plain id w) = Thrown SqlError /\
   db (snd (deleteInvoice_plain id w)) = db w /\
   events (snd (deleteInvoice_plain id w)) =
     (events w ++ [ESql (DELETE_invoices id)])%list).
Proof.
  split; intros R.
  - rewrite (deleteInvoice_plain_accepted id w R). simpl.
    split; [reflexivity|]. split; [|split; [reflexivity|now rewrite <- app_assoc]].
    intros r. rewrite filter_In. split; intros [I N]; split; try exact I.
    + apply String.eqb_neq. now apply negb_true_iff.
    + apply negb_true_iff. now apply String.eqb_neq.
  - rewrite (deleteInvoice_plain_rejected id w R). now repeat split.
Qed.

Lemma first_deleteInvoice_removes_exactly_the_id_witness :
  rejects Examples.billing (DELETE_invoices "1") = false /\
  invoices (db (snd (deleteInvoice_plain "1" Examples.billing)))
    = [Examples.second_invoice] /\
  (forall r, In r (invoices (db (snd (deleteInvoice_plain "1" Examples.billing)))) <->
             In r (invoices (db Examples.billing)) /\ row_id r <> "1").
Proof.
  split; [reflexivity|]. split; [reflexivity|].
  apply (first_deleteInvoice_removes_exactly_the_id "1" Examples.billing).
  reflexivity.
Defined.

Lemma filter_all {A} (f : A -> bool) (l : list A) :
  (forall x, In x l -> f x = true) -> filter f l = l.
Proof.
  induction l as [|a l IH]; intros H; simpl; [reflexivity|].
  rewrite (H a (or_introl eq_refl)). f_equal. apply IH.
  intros x I. apply H. now right.
Qed.

Lemma filter_twice {A} (f : A -> bool) (l : list A) :
  filter f (filter f l) = filter f l.
Proof.
  apply filter_all. intros x I. now apply filter_In in I.
Qed.



End DeleteFacts.

(** ** More on the credentials *)

Section AuthMore.

Import Zod Auth.

Variable is_email : string -> bool.
Variable bcrypt_compare : string -> string -> bool.

Local Abbreviation authorize := (Auth.authorize is_email bcrypt_compare).

Lemma schema_success_inv (credentials : Credentials) (e p : string) :
  credentials_schema is_email credentials = Success (e, p) ->
  email credentials = Some e /\ password credentials = Some p /\
  is_email e = true /\ 6 <= String.length p.
Proof.
  unfold credentials_schema, string_email, string_min.
  destruct credentials as [[e0|] [p0|]]; cbn [email password];
    try (destruct (is_email e0) eqn:E);
    try (destruct (Nat.leb 6 (String.length p0)) eqn:L);
    intros H; try discriminate H.
  inversion H. subst. apply Nat.leb_le in L. now repeat split.
Qed.

(** Every way a call of [authorize] can go. *)
Lemma authorize_cases (credentials : Credentials) (w : World) :
  (exists issues,
     credentials_schema is_email credentials = Failure issues /\
     authorize credentials w
       = (Normal None, emit (EConsoleLog "Invalid Credentials") w)) \/
  (exists e p,
     credentials_schema is_email credentials = Success (e, p) /\
     ((rejects w (SELECT_users e) = true /\
       authorize credentials w =
         (Thrown (JsError "Failed to fetch user."),
          emit (EConsoleError "Failed to fetch user:")
            (emit (ESql (SELECT_users e)) w))) \/
      (rejects w (SELECT_users e) = false /\
       hd_error (select_users e (db w)) = None /\
       authorize credentials w = (Normal None, emit (ESql (SELECT_users e)) w)) \/
      (exists u,
         rejects w (SELECT_users e) = false /\
         hd_error (select_users e (db w)) = Some u /\
         bcrypt_compare p (user_password u) = true /\
         authorize credentials w
           = (Normal (Some u), emit (ESql (SELECT_users e)) w)) \/
      (exists u,
         rejects w (SELECT_users e) = false /\
         hd_error (select_users e (db w)) = Some u /\
         bcrypt_compare p (user_password u) = false /\
         authorize credentials w =
           (Normal None,
            emit (EConsoleLog "Invalid Credentials")
              (emit (ESql (SELECT_users e)) w))))).
Proof.
  destruct (credentials_schema is_email credentials) as [[e p]|issues] eqn:S.
  - right. exists e, p. split; [reflexivity|].
    destruct (schema_success_inv credentials e p S) as (HE & HP & E & L).
    destruct credentials as [ce cp]. cbn [email password] in HE, HP. subst ce cp.
    rewrite (authorize_well_formed is_email bcrypt_compare e p w E L).
    destruct (rejects w (SELECT_users e)) eqn:R.
    + left. rewrite (getUser_rejected e w R). now split.
    + right. rewrite (getUser_accepted e w R).
      destruct (hd_error (select_users e (db w))) as [u|] eqn:H.
      * right. destruct (bcrypt_compare p (user_password u)) eqn:B.
        -- left. exists u. now repeat split.
        -- right. exists u. now repeat split.
      * left. now repeat split.
  - left. exists issues. split; [reflexivity|].
    exact (authorize_malformed is_email bcrypt_compare credentials issues w S).
Qed.

(** X14. [authorize] hands out a user only on these grounds: the submission
    has an email that passes the email check and a password of at least 6
    characters, the store answered the lookup, the user is the first row
    found under that email, and [bcrypt.compare] accepted the password
    against the hash of that row. *)
Theorem authorize_returns_a_user_only_for_matching_credentials
    (credentials : Credentials) (w : World) (u : User) :
  fst (authorize credentials w) = Normal (Some u) ->
  exists e p,
    email credentials = Some e /\ password credentials = Some p /\
    is_email e = true /\ 6 <= String.length p /\
    rejects w (SELECT_users e) = false /\
    hd_error (select_users e (db w)) = Some u /\
    user_email u = e /\
    bcrypt_compare p (user_password u) = true.
Proof.
  intros H.
  destruct (authorize_cases credentials w)
    as [(issues & _ & A)|(e & p & S & [(_ & A)|[(_ & _ & A)|[(u' & R & F & B & A)|(u' & _ & _ & _ & A)]]])];
    rewrite A in H; simpl in H; try discriminate H.
  inversion H. subst u'.
  destruct (schema_success_inv credentials e p S) as (HE & HP & E & L).
  exists e, p. repeat split; try assumption.
  now apply first_row_has_the_email with (d := db w).
Qed.

(** X15. Whatever the submission, [authorize] leaves the store as it is; the
    only statement it can send is the lookup of the submitted email, at most
    once; it never invalidates a path or redirects; and the only thing it
    throws is the error of [getUser]. *)
Theorem authorize_only_reads
    (credentials : Credentials) (w : World) :
  db (snd (authorize credentials w)) = db w /\
  (exists effects,
     events (snd (authorize credentials w)) = (events w ++ effects)%list /\
     (forall s, In (ESql s) effects ->
                exists e, email credentials = Some e /\ s = SELECT_users e) /\
     List.length (filter (fun x => match x with ESql _ => true | _ => false end)
                    effects) <= 1 /\
     (forall path, ~ In (ERevalidatePath path) effects /\
                   ~ In (ERedirect path) effects)) /\
  (forall x, fst (authorize credentials w) = Thrown x ->
             x = JsError "Failed to fetch user.").
Proof.
  destruct (authorize_cases credentials w)
    as [(issues & _ & A)|(e & p & S & C)].
  - rewrite A. simpl. split; [reflexivity|]. split.
    + exists [EConsoleLog "Invalid Credentials"]. split; [reflexivity|].
      split; [|split; [simpl; lia|]].
      * intros s [I|[]]. discriminate I.
      * intros path. split; intros [I|[]]; discriminate I.
    + intros x H. discriminate H.
  - destruct (schema_success_inv credentials e p S) as (HE & _).
    destruct C as [(_ & A)|[(_ & _ & A)|[(u & _ & _ & _ & A)|(u & _ & _ & _ & A)]]];
      rewrite A; simpl; (split; [reflexivity|]); split;
      try (intros x H; inversion H; reflexivity);
      try (intros x H; discriminate H).
    + exists [ESql (SELECT_users e); EConsoleError "Failed to fetch user:"].
      split; [now rewrite <- app_assoc|]. split; [|split; [simpl; lia|]].
      * intros s [I|[I|[]]]; inversion I. now exists e.
      * intros path. split; intros [I|[I|[]]]; discriminate I.
    + exists [ESql (SELECT_users e)].
      split; [reflexivity|]. split; [|split; [simpl; lia|]].
      * intros s [I|[]]; inversion I. now exists e.
      * intros path. split; intros [I|[]]; discriminate I.
    + exists [ESql (SELECT_users e)].
      split; [reflexivity|]. split; [|split; [simpl; lia|]].
      * intros s [I|[]]; inversion I. now exists e.
      * intros path. split; intros [I|[]]; discriminate I.
    + exists [ESql (SELECT_users e); EConsoleLog "Invalid Credentials"].
      split; [now rewrite <- app_assoc|]. split; [|split; [simpl; lia|]].
      * intros s [I|[I|[]]]; inversion I. now exists e.
      * intros path. split; intros [I|[I|[]]]; discriminate I.
Qed.

(** X16. An unknown email and a wrong password are both answered with
    [null], but they do not leave the same trace: for a well-formed pair
    whose lookup succeeds, an email with no row ends the call right after the
    lookup, with nothing logged, while a password that [bcrypt.compare] does
    not accept is followed by the log line ['Invalid Credentials']. *)
Theorem unknown_email_is_silent_and_wrong_password_is_logged
    (e p : string) (w : World) :
  is_email e = true -> 6 <= String.length p ->
  rejects w (SELECT_users e) = false ->
  (select_users e (db w) = [] ->
   authorize {| email := Some e; password := Some p |} w
     = (Normal None, emit (ESql (SELECT_users e)) w)) /\
  (forall u, hd_error (select_users e (db w)) = Some u ->
             bcrypt_compare p (user_password u) = false ->
   authorize {| email := Some e; password := Some p |} w
     = (Normal None,
        emit (EConsoleLog "Invalid Credentials") (emit (ESql (SELECT_users e)) w))).
Proof.
  intros E L R.
  rewrite (authorize_well_formed is_email bcrypt_compare e p w E L).
  rewrite (getUser_accepted e w R). split.
  - intros N. now rewrite N.
  - intros u H B. now rewrite H, B.
Qed.

End AuthMore.

Lemma authorize_returns_a_user_only_for_matching_credentials_witness :
  fst (Auth.authorize Sample.is_email Sample.bcrypt_compare
         {| Auth.email := Some "user@nextmail.com";
            Auth.password := Some "123456" |} Sample.online)
    = Normal (Some Sample.user) /\
  exists e p,
    Some "user@nextmail.com" = Some e /\ Some "123456" = Some p /\
    Sample.is_email e = true /\ 6 <= String.length p /\
    rejects Sample.online (SELECT_users e) = false /\
    hd_error (select_users e (db Sample.online)) = Some Sample.user /\
    user_email Sample.user = e /\
    Sample.bcrypt_compare p (user_password Sample.user) = true.
Proof.
  split; [reflexivity|].
  apply (authorize_returns_a_user_only_for_matching_credentials
           Sample.is_email Sample.bcrypt_compare
           {| Auth.email := Some "user@nextmail.com";
              Auth.password := Some "123456" |} Sample.online Sample.user).
  reflexivity.
Defined.

Lemma unknown_email_is_silent_and_wrong_password_is_logged_witness :
  Auth.authorize Sample.is_email Sample.bcrypt_compare
    {| Auth.email := Some "nobody@nextmail.com"; Auth.password := Some "123456" |}
    Sample.online
    = (Normal None, emit (ESql (SELECT_users "nobody@nextmail.com")) Sample.online) /\
  Auth.authorize Sample.is_email Sample.bcrypt_compare
    {| Auth.email := Some "user@nextmail.com"; Auth.password := Some "654321" |}
    Sample.online
    = (Normal None,
       emit (EConsoleLog "Invalid Credentials")
         (emit (ESql (SELECT_users "user@nextmail.com")) Sample.online)).
Proof.
  split.
  - apply (unknown_email_is_silent_and_wrong_password_is_logged
             Sample.is_email Sample.bcrypt_compare
             "nobody@nextmail.com" "123456" Sample.online);
      [reflexivity | simpl; lia | reflexivity | reflexivity].
  - apply (unknown_email_is_silent_and_wrong_password_is_logged
             Sample.is_email Sample.bcrypt_compare
             "user@nextmail.com" "654321" Sample.online)
      with (u := Sample.user);
      [reflexivity | simpl; lia | reflexivity | reflexivity | reflexivity].
Defined.

(** ** More on the route matcher *)

Section MiddlewareMore.

Import Str StrFacts Middleware.

Local Abbreviation png_at_end := (Seq AnyStar (Seq (Lit ".png") EndOfInput)).

Lemma any_star_to_the_end (s : string) :
  any_star s is_empty = Chars.single_line s.
Proof.
  induction s as [|c s IH]; [reflexivity|].
  rewrite any_star_step. simpl. now rewrite IH.
Qed.




Lemma single_line_app (a b : string) :
  Chars.single_line (a ++ b) = Chars.single_line a && Chars.single_line b.
Proof.
  induction a as [|c a IH]; [reflexivity|].
  simpl. rewrite IH. now rewrite andb_assoc.
Qed.

(** No string that ends in [/edit] ends in [.png]. *)
Lemma png_at_end_not_on_edit (s : string) :
  matches_then png_at_end (s ++ "/edit") (fun _ => true) = false.
Proof.
  cbn [matches_then]. induction s as [|c s IH]; [reflexivity|].
  change (String c s ++ "/edit") with (String c (s ++ "/edit")).
  rewrite any_star_step, IH, andb_false_r, orb_false_r.
  destruct s as [|c1 [|c2 [|c3 [|c4 s]]]];
    repeat (cbn [strip_prefix append is_empty andb];
            match goal with
            | |- context [Ascii.eqb ?a ?b] => destruct (Ascii.eqb a b)
            end);
    reflexivity.
Qed.

(** X18. The links of the edit page lead to guarded paths: for every invoice
    id without a line terminator, the path of each breadcrumb, the edit path
    built from the id among them, is matched by the matcher, also when the id
    itself begins with [api] or ends in [.png]. *)
Theorem edit_page_links_are_guarded (id : string) (crumb : EditPage.Breadcrumb) :
  Chars.single_line id = true ->
  In crumb (EditPage.breadcrumbs id) ->
  full_match matcher (EditPage.href crumb) = true.
Proof.
  intros L [E|[E|[]]]; subst crumb; cbn [EditPage.href]; [reflexivity|].
  rewrite full_match_matcher.
  change ("/dashboard/invoices/" ++ id ++ "/edit")
    with (String "/" (("dashboard/invoices/" ++ id) ++ "/edit")).
  cbv beta iota. rewrite png_at_end_not_on_edit.
  rewrite any_star_to_the_end, !single_line_app, L. reflexivity.
Qed.

Lemma edit_page_links_are_guarded_witness :
  Chars.single_line "api-7.png" = true /\
  full_match matcher "/dashboard/invoices/api-7.png/edit" = true.
Proof.
  split; [reflexivity|].
  apply (edit_page_links_are_guarded "api-7.png"
           {| EditPage.label := "Edit Invoice";
              EditPage.href := "/dashboard/invoices/api-7.png/edit";
              EditPage.active := Some true |});
    [reflexivity | right; left; reflexivity].
Defined.

End MiddlewareMore.

(** ** The search box *)

Section SearchFacts.

Import URLSearchParams.

Lemma named_eq (name k v : string) : named name (k, v) = String.eqb k name.
Proof. reflexivity. Qed.

Lemma get_delete_same (l : t) (n : string) : get (delete l n) n = None.
Proof.
  induction l as [|[k v] l IH]; [reflexivity|].
  unfold delete in *. simpl. rewrite named_eq.
  destruct (String.eqb k n) eqn:E; simpl; [exact IH|].
  now rewrite E.
Qed.

Lemma get_delete_other (l : t) (n m : string) :
  m <> n -> get (delete l n) m = get l m.
Proof.
  intros N. induction l as [|[k v] l IH]; [reflexivity|].
  unfold delete in *. simpl. rewrite named_eq.
  destruct (String.eqb k n) eqn:E; simpl.
  - apply String.eqb_eq in E. subst k.
    apply not_eq_sym in N. apply String.eqb_neq in N. now rewrite N.
  - now rewrite IH.
Qed.

Lemma delete_delete (l : t) (n : string) : delete (delete l n) n = delete l n.
Proof. apply filter_twice. Qed.

Lemma delete_absent (l : t) (n : string) : has l n = false -> delete l n = l.
Proof.
  intros H. apply filter_all. intros p I. apply negb_true_iff.
  destruct (named n p) eqn:E; [|reflexivity].
  unfold has in H. assert (X : existsb (named n) l = true)
    by (apply existsb_exists; now exists p). congruence.
Qed.

Lemma delete_set_first (l : t) (n v : string) :
  delete (set_first l n v) n = delete l n.
Proof.
  induction l as [|[k x] l IH]; [reflexivity|].
  simpl. destruct (String.eqb k n) eqn:E.
  - unfold delete at 1. simpl. rewrite named_eq, E. simpl.
    fold (delete (delete l n) n). rewrite delete_delete.
    unfold delete at 2. simpl. now rewrite named_eq, E.
  - unfold delete in *. simpl. rewrite !named_eq, E. simpl. now rewrite IH.
Qed.

Lemma delete_app (a b : t) (n : string) :
  delete (a ++ b)%list n = (delete a n ++ delete b n)%list.
Proof. apply filter_app. Qed.

Lemma delete_set (l : t) (n v : string) : delete (set l n v) n = delete l n.
Proof.
  unfold set. destruct (has l n) eqn:H; [apply delete_set_first|].
  rewrite delete_app. unfold delete at 2. simpl. rewrite named_eq, String.eqb_refl.
  simpl. apply app_nil_r.
Qed.

Lemma get_set_first_same (l : t) (n v : string) :
  has l n = true -> get (set_first l n v) n = Some v.
Proof.
  induction l as [|[k x] l IH]; [discriminate|].
  unfold has. simpl. rewrite named_eq.
  destruct (String.eqb k n) eqn:E; simpl; rewrite E; [reflexivity|].
  exact IH.
Qed.

Lemma get_append_absent (l : t) (n v : string) :
  has l n = false -> get (l ++ [(n, v)])%list n = Some v.
Proof.
  induction l as [|[k x] l IH]; simpl.
  - now rewrite String.eqb_refl.
  - unfold has. simpl. rewrite named_eq.
    destruct (String.eqb k n); [discriminate|]. exact IH.
Qed.

Lemma get_set_same (l : t) (n v : string) : get (set l n v) n = Some v.
Proof.
  unfold set. destruct (has l n) eqn:H.
  - now apply get_set_first_same.
  - now apply get_append_absent.
Qed.

Lemma get_set_other (l : t) (n v m : string) :
  m <> n -> get (set l n v) m = get l m.
Proof.
  intros N. rewrite <- (get_delete_other (set l n v) n m N).
  rewrite delete_set. now apply get_delete_other.
Qed.

Lemma count_named_delete (l : t) (n : string) :
  List.length (filter (named n) (delete l n)) = 0.
Proof.
  induction l as [|[k v] l IH]; [reflexivity|].
  unfold delete in *. simpl. rewrite named_eq.
  destruct (String.eqb k n) eqn:E; simpl; [exact IH|].
  rewrite named_eq, E. exact IH.
Qed.

Lemma count_named_set_first (l : t) (n v : string) :
  has l n = true -> List.length (filter (named n) (set_first l n v)) = 1.
Proof.
  induction l as [|[k x] l IH]; [discriminate|].
  unfold has. simpl. rewrite named_eq.
  destruct (String.eqb k n) eqn:E; simpl; rewrite named_eq, E.
  - intros _. simpl. now rewrite count_named_delete.
  - exact IH.
Qed.

Lemma count_named_absent (l : t) (n : string) :
  has l n = false -> List.length (filter (named n) l) = 0.
Proof.
  intros H. rewrite <- (delete_absent l n H). apply count_named_delete.
Qed.

Lemma count_named_set (l : t) (n v : string) :
  List.length (filter (named n) (set l n v)) = 1.
Proof.
  unfold set. destruct (has l n) eqn:H.
  - now apply count_named_set_first.
  - rewrite filter_app, length_app, (count_named_absent l n H).
    simpl. rewrite named_eq, String.eqb_refl. reflexivity.
Qed.

Lemma has_set_first (l : t) (n v : string) : has (set_first l n v) n = has l n.
Proof.
  induction l as [|[k x] l IH]; [reflexivity|].
  unfold has in *. simpl. rewrite named_eq.
  destruct (String.eqb k n) eqn:E; simpl; rewrite named_eq, E; [reflexivity|].
  exact IH.
Qed.

Lemma set_first_set_first (l : t) (n v1 v2 : string) :
  set_first (set_first l n v1) n v2 = set_first l n v2.
Proof.
  induction l as [|[k x] l IH]; [reflexivity|].
  simpl. destruct (String.eqb k n) eqn:E; simpl; rewrite E.
  - now rewrite delete_delete.
  - now rewrite IH.
Qed.

Lemma set_first_append (l : t) (n v1 v2 : string) :
  has l n = false -> set_first (l ++ [(n, v1)])%list n v2 = (l ++ [(n, v2)])%list.
Proof.
  induction l as [|[k x] l IH]; simpl.
  - now rewrite String.eqb_refl.
  - unfold has. simpl. rewrite named_eq.
    destruct (String.eqb k n); [discriminate|]. intros H. f_equal. now apply IH.
Qed.

Lemma has_append (l : t) (n v : string) : has (l ++ [(n, v)])%list n = true.
Proof.
  unfold has. rewrite existsb_app. simpl. rewrite named_eq, String.eqb_refl.
  now rewrite orb_true_r.
Qed.

Lemma set_set (l : t) (n v1 v2 : string) : set (set l n v1) n v2 = set l n v2.
Proof.
  unfold set at 2 3. destruct (has l n) eqn:H.
  - unfold set. rewrite has_set_first, H. apply set_first_set_first.
  - unfold set. rewrite has_append. now apply set_first_append.
Qed.

Lemma has_delete (l : t) (n : string) : has (delete l n) n = false.
Proof.
  unfold has. destruct (existsb (named n) (delete l n)) eqn:E; [|reflexivity].
  apply existsb_exists in E. destruct E as (p & I & N).
  apply filter_In in I. destruct I as [_ I]. now rewrite N in I.
Qed.

Lemma term_cases (term : string) :
  Str.is_empty term = true /\ term = "" \/ Str.is_empty term = false.
Proof. destruct term; [left; now split|now right]. Qed.

(** X19. What [handleSearch] does to the search parameters. A non-empty term
    becomes the value of [query], and [query] then occurs exactly once; an
    empty term leaves no [query] at all. In both cases the pairs under the
    other names stay, in their order, and read as before. *)
Theorem handleSearch_touches_only_the_query
    (searchParams : URLSearchParams.t) (term : string) :
  get (Search.params_after searchParams term) "query"
    = (if Str.is_empty term then None else Some term) /\
  List.length (filter (named "query") (Search.params_after searchParams term))
    = (if Str.is_empty term then 0 else 1) /\
  delete (Search.params_after searchParams term) "query"
    = delete searchParams "query" /\
  (forall name, name <> "query" ->
     get (Search.params_after searchParams term) name = get searchParams name).
Proof.
  unfold Search.params_after. destruct (Str.is_empty term).
  - split; [apply get_delete_same|]. split; [apply count_named_delete|].
    split; [apply delete_delete|]. intros name N. now apply get_delete_other.
  - split; [apply get_set_same|]. split; [apply count_named_set|].
    split; [apply delete_set|]. intros name N. now apply get_set_other.
Qed.

(** X20. Searching again. The same term a second time changes nothing, and
    after a non-empty term any further term gives the parameters, and so the
    URL, it would have given in the first place: the earlier term leaves no
    trace. *)
Theorem handleSearch_forgets_the_earlier_term
    (searchParams : URLSearchParams.t) (pathname t1 t2 : string) :
  Search.params_after (Search.params_after searchParams t1) t1
    = Search.params_after searchParams t1 /\
  (t1 <> "" ->
   Search.params_after (Search.params_after searchParams t1) t2
     = Search.params_after searchParams t2 /\
   Search.handleSearch (Search.params_after searchParams t1) pathname t2
     = Search.handleSearch searchParams pathname t2).
Proof.
  split.
  - unfold Search.params_after. destruct (Str.is_empty t1).
    + apply delete_delete.
    + apply set_set.
  - intros N.
    assert (E : Search.params_after (Search.params_after searchParams t1) t2
                = Search.params_after searchParams t2).
    { unfold Search.params_after.
      destruct t1 as [|c t1]; [contradiction|]. cbn [Str.is_empty].
      destruct (Str.is_empty t2); [apply delete_set | apply set_set]. }
    split; [exact E|]. unfold Search.handleSearch. now rewrite E.
Qed.

Lemma handleSearch_forgets_the_earlier_term_witness :
  "lee" <> "" /\
  Search.handleSearch
    (Search.params_after [("page", "2"); ("query", "old")] "lee")
    "/dashboard/invoices" "amy"
  = "/dashboard/invoices?page=2&query=amy".
Proof.
  split; [discriminate|].
  transitivity (Search.handleSearch [("page", "2"); ("query", "old")]
                  "/dashboard/invoices" "amy"); [|reflexivity].
  apply (handleSearch_forgets_the_earlier_term
           [("page", "2"); ("query", "old")] "/dashboard/invoices" "lee" "amy").
  discriminate.
Defined.

End SearchFacts.

(** ** The query string *)

Section QueryFacts.

Import URLSearchParams QueryString.

Local Abbreviation delimited :=
  (fun c => Chars.is_encoded_char c || Ascii.eqb c "&" || Ascii.eqb c "=")%char.

Lemma all_app (f : ascii -> bool) (a b : string) :
  Chars.all f (a ++ b) = Chars.all f a && Chars.all f b.
Proof.
  induction a as [|c a IH]; [reflexivity|].
  simpl. rewrite IH. apply andb_assoc.
Qed.

Lemma all_weaken (f g : ascii -> bool) (s : string) :
  (forall c, f c = true -> g c = true) ->
  Chars.all f s = true -> Chars.all g s = true.
Proof.
  intros H. induction s as [|c s IH]; [reflexivity|].
  simpl. intros A. apply andb_true_iff in A. destruct A as [A B].
  now rewrite (H c A), (IH B).
Qed.

Lemma count_app (c : ascii) (a b : string) :
  Chars.count c (a ++ b) = Chars.count c a + Chars.count c b.
Proof.
  induction a as [|d a IH]; [reflexivity|].
  simpl. rewrite IH. apply Nat.add_assoc.
Qed.

Lemma count_none (f : ascii -> bool) (c : ascii) (s : string) :
  f c = false -> Chars.all f s = true -> Chars.count c s = 0.
Proof.
  intros N. induction s as [|d s IH]; [reflexivity|].
  simpl. intros A. apply andb_true_iff in A. destruct A as [A B].
  rewrite (IH B). destruct (Ascii.eqb d c) eqn:E; [|reflexivity].
  apply Ascii.eqb_eq in E. subst d. congruence.
Qed.

(** The bytes of a character are written with encoded characters only. *)
Lemma bytes_are_encoded (c : ascii) :
  Chars.all Chars.is_encoded_char (serialize_bytes (utf8 c)) = true.
Proof. destruct c as [[] [] [] [] [] [] [] []]; vm_compute; reflexivity. Qed.

Lemma urlencode_is_encoded (s : string) :
  Chars.all Chars.is_encoded_char (urlencode s) = true.
Proof.
  induction s as [|c s IH]; [reflexivity|].
  simpl. now rewrite all_app, bytes_are_encoded, IH.
Qed.

Lemma urlencode_has_no (c : ascii) (s : string) :
  Chars.is_encoded_char c = false -> Chars.count c (urlencode s) = 0.
Proof.
  intros N. apply (count_none Chars.is_encoded_char c _ N).
  apply urlencode_is_encoded.
Qed.

Lemma encoded_is_delimited (c : ascii) :
  Chars.is_encoded_char c = true -> delimited c = true.
Proof. intros H. cbv beta. now rewrite H. Qed.

Lemma serialize_pair_counts (p : string * string) :
  Chars.all delimited (serialize_pair p) = true /\
  Chars.count "=" (serialize_pair p) = 1 /\
  Chars.count "&" (serialize_pair p) = 0.
Proof.
  unfold serialize_pair. split; [|split].
  - rewrite !all_app. simpl.
    rewrite !(all_weaken Chars.is_encoded_char delimited _
                encoded_is_delimited (urlencode_is_encoded _)).
    reflexivity.
  - rewrite !count_app, !urlencode_has_no by reflexivity. reflexivity.
  - rewrite !count_app, !urlencode_has_no by reflexivity. reflexivity.
Qed.

Lemma toString_cons (p : string * string) (l : t) :
  toString (p :: l) =
    match l with
    | [] => serialize_pair p
    | _ => serialize_pair p ++ "&" ++ toString l
    end.
Proof. destruct l; reflexivity. Qed.

Lemma toString_counts (l : t) :
  Chars.all delimited (toString l) = true /\
  Chars.count "=" (toString l) = List.length l /\
  Chars.count "&" (toString l) = pred (List.length l).
Proof.
  induction l as [|p l (A & E & S)]; [now repeat split|].
  destruct (serialize_pair_counts p) as (PA & PE & PS).
  rewrite toString_cons. destruct l as [|q l].
  - now repeat split.
  - rewrite !all_app, !count_app. cbn [Chars.all Chars.count].
    rewrite PA, A, PE, E, PS, S. simpl. repeat split; lia.
Qed.

(** X21. The query string [handleSearch] builds is well delimited, whatever
    the term and the parameters hold: it is made of unreserved characters,
    [+], [%], [&] and [=] only, it has one [=] for each pair and one [&]
    between two pairs, so that no character of a name or of the term can pass
    for a delimiter. *)
Theorem query_string_is_well_delimited
    (searchParams : URLSearchParams.t) (pathname term : string) :
  Search.handleSearch searchParams pathname term
    = pathname ++ "?" ++ toString (Search.params_after searchParams term) /\
  Chars.all (fun c => Chars.is_encoded_char c || Ascii.eqb c "&" || Ascii.eqb c "=")%char
    (toString (Search.params_after searchParams term)) = true /\
  Chars.count "=" (toString (Search.params_after searchParams term))
    = List.length (Search.params_after searchParams term) /\
  Chars.count "&" (toString (Search.params_after searchParams term))
    = pred (List.length (Search.params_after searchParams term)).
Proof.
  split; [reflexivity|]. apply toString_counts.
Qed.

(** *** Decoding what was encoded *)

Lemma plus_to_space_app (a b : string) :
  plus_to_space (a ++ b) = plus_to_space a ++ plus_to_space b.
Proof. induction a as [|c a IH]; [reflexivity|]. simpl. now rewrite IH. Qed.

Lemma percent_decode_plain (a : ascii) (r : string) :
  Ascii.eqb a "%" = false ->
  percent_decode (String a r) = N_of_ascii a :: percent_decode r.
Proof. intros H. cbn [percent_decode]. now rewrite H. Qed.

Lemma percent_decode_escape (h l : ascii) (x y : N) (r : string) :
  hex_value h = Some x -> hex_value l = Some y ->
  percent_decode (String "%" (String h (String l r)))
  = (16 * x + y)%N :: percent_decode r.
Proof.
  intros H L. cbn [percent_decode]. rewrite Ascii.eqb_refl, H, L. reflexivity.
Qed.

(** The characters that write the bytes of [c]: each byte is written either
    by itself or by an escape. *)
Lemma bytes_shape (c : ascii) :
  (exists a,
     plus_to_space (serialize_bytes (utf8 c)) = String a "" /\
     Ascii.eqb a "%" = false /\ utf8 c = [N_of_ascii a]) \/
  (exists h l x y,
     plus_to_space (serialize_bytes (utf8 c)) = String "%" (String h (String l "")) /\
     hex_value h = Some x /\ hex_value l = Some y /\
     utf8 c = [(16 * x + y)%N]) \/
  (exists h l x y h' l' x' y',
     plus_to_space (serialize_bytes (utf8 c))
       = String "%" (String h (String l (String "%" (String h' (String l' ""))))) /\
     hex_value h = Some x /\ hex_value l = Some y /\
     hex_value h' = Some x' /\ hex_value l' = Some y' /\
     utf8 c = [(16 * x + y)%N; (16 * x' + y')%N]).
Proof.
  destruct c as [[] [] [] [] [] [] [] []];
    first
      [ left; eexists; split; [vm_compute; reflexivity|];
        split; vm_compute; reflexivity
      | right; left; do 4 eexists; split; [vm_compute; reflexivity|];
        split; [vm_compute; reflexivity|];
        split; [vm_compute; reflexivity|]; vm_compute; reflexivity
      | right; right; do 8 eexists; split; [vm_compute; reflexivity|];
        split; [vm_compute; reflexivity|];
        split; [vm_compute; reflexivity|];
        split; [vm_compute; reflexivity|];
        split; [vm_compute; reflexivity|]; vm_compute; reflexivity ].
Qed.

Lemma bytes_are_read_back (c : ascii) (r : string) :
  percent_decode (plus_to_space (serialize_bytes (utf8 c)) ++ r)
  = (utf8 c ++ percent_decode r)%list.
Proof.
  destruct (bytes_shape c)
    as [(a & S & P & U)
       |[(h & l & x & y & S & H & L & U)
        |(h & l & x & y & h' & l' & x' & y' & S & H & L & H' & L' & U)]];
    rewrite S, U; cbn [append app].
  - now apply percent_decode_plain.
  - now apply percent_decode_escape.
  - rewrite (percent_decode_escape h l x y _ H L).
    now rewrite (percent_decode_escape h' l' x' y' _ H' L').
Qed.

Lemma utf8_is_read_back (c : ascii) (bytes : list N) :
  utf8_decode (utf8 c ++ bytes) = option_map (String c) (utf8_decode bytes).
Proof.
  assert (S : (exists b, utf8 c = [b] /\ (b <? 128)%N = true /\ ascii_of_N b = c) \/
              (exists b b2, utf8 c = [b; b2] /\ (b <? 128)%N = false /\
                 (((b =? 194) || (b =? 195)) && (128 <=? b2) && (b2 <? 192))%N = true /\
                 ascii_of_N ((b - 192) * 64 + (b2 - 128)) = c)).
  { destruct c as [[] [] [] [] [] [] [] []];
      first [ left; eexists; split; [vm_compute; reflexivity|];
              split; vm_compute; reflexivity
            | right; do 2 eexists; split; [vm_compute; reflexivity|];
              split; [vm_compute; reflexivity|];
              split; vm_compute; reflexivity ]. }
  destruct S as [(b & U & B & A)|(b & b2 & U & B & B2 & A)];
    rewrite U; cbn [app utf8_decode].
  - now rewrite B, A.
  - now rewrite B, B2, A.
Qed.

Lemma decode_urlencode (s : string) : decode (urlencode s) = Some s.
Proof.
  unfold decode. induction s as [|c s IH]; [reflexivity|].
  cbn [urlencode]. rewrite plus_to_space_app, bytes_are_read_back.
  rewrite utf8_is_read_back, IH. reflexivity.
Qed.

Lemma cut_at_first (sep : ascii) (a b : string) :
  Chars.count sep a = 0 -> cut_at sep (a ++ String sep b) = (a, b).
Proof.
  induction a as [|c a IH]; simpl.
  - now rewrite Ascii.eqb_refl.
  - destruct (Ascii.eqb c sep); [discriminate|]. intros H. now rewrite (IH H).
Qed.

Lemma split_on_first (sep : ascii) (a b : string) :
  Chars.count sep a = 0 ->
  split_on sep (a ++ String sep b) = a :: split_on sep b.
Proof.
  induction a as [|c a IH]; simpl.
  - now rewrite Ascii.eqb_refl.
  - destruct (Ascii.eqb c sep); [discriminate|]. intros H. now rewrite (IH H).
Qed.

Lemma split_on_none (sep : ascii) (a : string) :
  Chars.count sep a = 0 -> split_on sep a = [a].
Proof.
  induction a as [|c a IH]; simpl; [reflexivity|].
  destruct (Ascii.eqb c sep); [discriminate|]. intros H. now rewrite (IH H).
Qed.

Lemma parse_serialize_pair (p : string * string) :
  parse_pair (serialize_pair p) = Some p /\
  Str.is_empty (serialize_pair p) = false.
Proof.
  destruct p as [n v]. unfold parse_pair, serialize_pair. cbn [fst snd]. split.
  - change (urlencode n ++ "=" ++ urlencode v)
      with (urlencode n ++ String "=" (urlencode v)).
    rewrite cut_at_first by (now apply urlencode_has_no).
    now rewrite !decode_urlencode.
  - destruct (urlencode n); reflexivity.
Qed.

(** X22. Serializing and parsing are inverse to each other on the search
    parameters: the query string of any list of pairs is read back as that
    list, names, values and order. *)
Theorem query_string_round_trip (params : URLSearchParams.t) :
  parse (toString params) = Some params.
Proof.
  unfold parse. induction params as [|p l IH]; [reflexivity|].
  destruct (parse_serialize_pair p) as [P E].
  destruct (serialize_pair_counts p) as (_ & _ & S).
  rewrite toString_cons. destruct l as [|q l].
  - rewrite (split_on_none "&" _ S). cbn [parse_pieces]. now rewrite E, P.
  - change (serialize_pair p ++ "&" ++ toString (q :: l))
      with (serialize_pair p ++ String "&" (toString (q :: l))).
    rewrite (split_on_first "&" _ _ S). cbn [parse_pieces].
    now rewrite E, P, IH.
Qed.


End QueryFacts.

(** ** Invalid input, then and now *)

Section InvalidThenAndNow.

Import FormData Zod Actions.

Variable ZodError_message : list Issue -> string.

(** X24. Input the earlier schema turns down used to end the call with a
    thrown [ZodError], in both earlier revisions, before anything was sent;
    the present [createInvoice] turns the same input down as well, but
    returns: the caller gets field errors and a message instead of a fault.
    In all three the world stays as it was. *)
Theorem invalid_input_was_thrown_and_is_now_returned
    (prevState : State) (formData : FormData.t) (error : list Issue) (w : World) :
  ActionsEarlier.CreateInvoice (raw_of formData) = Failure error ->
  ActionsEarlier.createInvoice_plain ZodError_message formData w
    = (Thrown (JsError (ZodError_message error)), w) /\
  ActionsEarlier.createInvoice_caught ZodError_message formData w
    = (Thrown (JsError (ZodError_message error)), w) /\
  exists errors',
    createInvoice prevState formData w =
      (Normal {| errors := Some errors';
                 message := Some "Missing Fields. Failed to Create Invoice." |}, w).
Proof.
  intros F. split; [|split].
  - unfold ActionsEarlier.createInvoice_plain, ActionsEarlier.parse, bind.
    now rewrite F.
  - unfold ActionsEarlier.createInvoice_caught, ActionsEarlier.parse, bind.
    now rewrite F.
  - destruct (safeParse CreateInvoice (raw_of formData)) as [data|error'] eqn:P.
    + apply earlier_schema_accepts in P. congruence.
    + exists (flatten_fieldErrors error'). now apply createInvoice_invalid.
Qed.

End InvalidThenAndNow.

Lemma invalid_input_was_thrown_and_is_now_returned_witness :
  ActionsEarlier.CreateInvoice (Actions.raw_of (Sample.form "abc")) =
    Zod.Failure [{| Zod.path := "amount";
                    Zod.message := "Expected number, received nan" |}] /\
  ActionsEarlier.createInvoice_plain Examples.zod_message (Sample.form "abc")
    Sample.online
    = (Thrown (JsError "Expected number, received nan"), Sample.online) /\
  ActionsEarlier.createInvoice_caught Examples.zod_message (Sample.form "abc")
    Sample.online
    = (Thrown (JsError "Expected number, received nan"), Sample.online).
Proof.
  assert (F : ActionsEarlier.CreateInvoice (Actions.raw_of (Sample.form "abc")) =
              Zod.Failure [{| Zod.path := "amount";
                              Zod.message := "Expected number, received nan" |}])
    by (vm_compute; reflexivity).
  split; [exact F|].
  pose proof (invalid_input_was_thrown_and_is_now_returned
                Examples.zod_message Sample.no_state (Sample.form "abc") _
                Sample.online F) as (A & B & _).
  split; [exact A | exact B].
Defined.

